(** * The key-version resource of the OCI Terraform provider

    A shallow embedding of [oci/kms_key_version_resource.go]: the composite
    identifier codec, the import parser, the deletion guard and the
    Create/Get/Delete/SetData methods of [KmsKeyVersionResourceCrud].

    Go strings are byte sequences; they are modelled by [string], whose
    characters are the 256 values of [ascii]. *)

From Stdlib Require Import Ascii String List Arith Lia Bool.
From stdpp Require Import base option gmap strings.

Open Scope string_scope.

#[local] Arguments String.append !_ _ : simpl nomatch.

(** ** Strings *)

Module GoString.

Fixpoint all_bytes (p : ascii -> bool) (s : string) : bool :=
  match s with
  | EmptyString => true
  | String c s' => p c && all_bytes p s'
  end.

Fixpoint count_byte (sep : ascii) (s : string) : nat :=
  match s with
  | EmptyString => 0
  | String c s' => (if Ascii.eqb c sep then 1 else 0) + count_byte sep s'
  end.

(** [strings.HasPrefix] followed by slicing the prefix off. *)
Fixpoint strip_prefix (p s : string) : option string :=
  match p with
  | EmptyString => Some s
  | String a p' =>
      match s with
      | EmptyString => None
      | String b s' => if Ascii.eqb a b then strip_prefix p' s' else None
      end
  end.

(** [s[:n]] for [n <= len(s)]. *)
Fixpoint take (n : nat) (s : string) : string :=
  match n, s with
  | S n', String c s' => String c (take n' s')
  | _, _ => EmptyString
  end.

(** [strings.Split(s, sep)] for a one-byte separator: the pieces of [s]
    between the occurrences of [sep]; [count sep s + 1] pieces, in
    particular one empty piece for the empty string. *)
Fixpoint Split (s : string) (sep : ascii) : list string :=
  match s with
  | EmptyString => [EmptyString]
  | String c s' =>
      if Ascii.eqb c sep then EmptyString :: Split s' sep
      else match Split s' sep with
           | piece :: rest => String c piece :: rest
           | [] => [String c EmptyString]
           end
  end.

End GoString.

(** ** net/url: escaping of one path segment

    [url.PathEscape] and [url.PathUnescape] are [escape] and [unescape] of
    the Go library in mode [encodePathSegment]. *)

Module url.

Definition in_range (lo hi c : ascii) : bool :=
  Nat.leb (nat_of_ascii lo) (nat_of_ascii c) && Nat.leb (nat_of_ascii c) (nat_of_ascii hi).

Definition is_one_of (cs : string) (c : ascii) : bool :=
  negb (GoString.all_bytes (fun x => negb (Ascii.eqb x c)) cs).

(** [shouldEscape(c, encodePathSegment)]: letters, digits and the marks
    [-_.~] are kept; of the reserved characters, [/ ; , ?] are escaped and
    [$ & + : = @] are kept; every other byte is escaped. *)
Definition shouldEscape (c : ascii) : bool :=
  if in_range "a" "z" c || in_range "A" "Z" c || in_range "0" "9" c then false
  else if is_one_of "-_.~" c then false
  else if is_one_of "$&+,/:;=?@" c then is_one_of "/;,?" c
  else true.

Definition upperhex (n : nat) : ascii :=
  match String.get n "0123456789ABCDEF" with
  | Some c => c
  | None => "0"%char
  end.

Definition ishex (c : ascii) : bool :=
  in_range "0" "9" c || in_range "a" "f" c || in_range "A" "F" c.

Definition unhex (c : ascii) : nat :=
  if in_range "0" "9" c then nat_of_ascii c - nat_of_ascii "0"
  else if in_range "a" "f" c then nat_of_ascii c - nat_of_ascii "a" + 10
  else if in_range "A" "F" c then nat_of_ascii c - nat_of_ascii "A" + 10
  else 0.

(** A byte that is neither a slash, nor a newline, nor a percent sign. *)
Definition plain_byte (c : ascii) : bool :=
  negb (Ascii.eqb c "/") && negb (Ascii.eqb c "010") && negb (Ascii.eqb c "%").

(** The building loop of [escape]: [%XY] for a byte to escape, with
    [X = upperhex[c>>4]] and [Y = upperhex[c&15]]. *)
Fixpoint PathEscape (s : string) : string :=
  match s with
  | EmptyString => EmptyString
  | String c s' =>
      if shouldEscape c then
        String "%" (String (upperhex (nat_of_ascii c / 16))
                   (String (upperhex (nat_of_ascii c mod 16)) (PathEscape s')))
      else String c (PathEscape s')
  end.

(** [EscapeError]: the offending piece, at most three bytes. *)
Inductive EscapeError := EscapeError_of (piece : string).

(** First loop of [unescape]: every [%] must be followed by two hex digits;
    the first one that is not stops the scan with an [EscapeError]. *)
Fixpoint unescape_check (s : string) : option EscapeError :=
  match s with
  | EmptyString => None
  | String c s1 =>
      if Ascii.eqb c "%" then
        match s1 with
        | String h (String l s3) =>
            if ishex h && ishex l then unescape_check s3
            else Some (EscapeError_of (GoString.take 3 s))
        | _ => Some (EscapeError_of (GoString.take 3 s))
        end
      else unescape_check s1
  end.

(** Second loop of [unescape], run on a string that passed the first. *)
Fixpoint unescape_build (s : string) : string :=
  match s with
  | EmptyString => EmptyString
  | String c s1 =>
      if Ascii.eqb c "%" then
        match s1 with
        | String h (String l s3) =>
            String (ascii_of_nat (unhex h * 16 + unhex l)) (unescape_build s3)
        | _ => EmptyString
        end
      else String c (unescape_build s1)
  end.

(** [url.PathUnescape]: the pair [(result, err)] of the Go function; the
    result is the empty string when there is an error. *)
Definition PathUnescape (s : string) : string * option EscapeError :=
  match unescape_check s with
  | Some e => (EmptyString, Some e)
  | None => (unescape_build s, None)
  end.

End url.

(** ** regexp: the two patterns of the file

    The syntax trees [regexp.Compile] builds for the patterns used here,
    and a backtracking matcher for them.  Alternatives are tried in the
    order of Go's leftmost-first semantics: an earlier start before a later
    one, and for the greedy [.*] a longer run before a shorter one.  [.]
    matches every byte but the newline (no flag [s] is set). *)

Module regexp.

Inductive Regexp : Type :=
| Literal (l : string)
| AnyNotNLStar
| Capture (r : Regexp)
| Concat (r1 r2 : Regexp)
| BeginText
| EndText.

Definition newline : ascii := "010"%char.

Definition notNL (c : ascii) : bool := negb (Ascii.eqb c newline).

Section Matcher.
Context {R : Type}.

(** [.*] on [s], at offset [pos] of the text: the longest run first. *)
Fixpoint star_any (pos : nat) (s : string) (k : nat -> string -> option R) : option R :=
  match s with
  | EmptyString => k pos s
  | String c s' =>
      if notNL c then
        match star_any (S pos) s' k with
        | Some r => Some r
        | None => k pos s
        end
      else k pos s
  end.

(** [run r pos s caps k]: match [r] against a prefix of [s], the rest of
    the text from offset [pos]; [caps] are the groups closed so far; [k]
    continues with the unread rest.  The groups of the patterns here are
    not nested, so they close in the order of their numbers. *)
Fixpoint run (r : Regexp) (pos : nat) (s : string) (caps : list string)
    (k : nat -> string -> list string -> option R) : option R :=
  match r with
  | Literal l =>
      match GoString.strip_prefix l s with
      | Some s' => k (pos + String.length l) s' caps
      | None => None
      end
  | AnyNotNLStar => star_any pos s (fun pos' s' => k pos' s' caps)
  | Capture r1 =>
      run r1 pos s caps
        (fun pos' s' caps' => k pos' s' (caps' ++ [GoString.take (pos' - pos) s])%list)
  | Concat r1 r2 =>
      run r1 pos s caps (fun pos' s' caps' => run r2 pos' s' caps' k)
  | BeginText => if Nat.eqb pos 0 then k pos s caps else None
  | EndText =>
      match s with
      | EmptyString => k pos s caps
      | String _ _ => None
      end
  end.
End Matcher.

(** A match of [r] starting at offset [pos]: where it ends, and its groups. *)
Definition match_at (r : Regexp) (pos : nat) (s : string) : option (nat * list string) :=
  run r pos s [] (fun pos' _ caps => Some (pos', caps)).

(** The leftmost match: [(start, end, groups)]. *)
Fixpoint search (r : Regexp) (pos : nat) (s : string) : option (nat * nat * list string) :=
  match match_at r pos s with
  | Some (e, caps) => Some (pos, e, caps)
  | None =>
      match s with
      | EmptyString => None
      | String _ s' => search r (S pos) s'
      end
  end.

(** The method [MatchString] of a compiled pattern: is there a match
    anywhere in [s]? *)
Definition Regexp_MatchString (r : Regexp) (s : string) : bool :=
  match search r 0 s with
  | Some _ => true
  | None => false
  end.

(** The method [FindStringSubmatch]: the text of the leftmost match followed
    by the texts of its groups; [nil] when there is no match. *)
Definition FindStringSubmatch (r : Regexp) (s : string) : list string :=
  match search r 0 s with
  | Some (b, e, caps) => String.substring b (e - b) s :: caps
  | None => []
  end.

(** *** Reading a pattern

    The part of the pattern syntax the two patterns need: literal bytes,
    [.*], groups, [^] and [$].  Anything else is refused. *)

Fixpoint seq_of (items : list Regexp) : Regexp :=
  match items with
  | [] => Literal ""
  | [r] => r
  | r :: rest => Concat r (seq_of rest)
  end.

(** A literal byte joins the literal before it, as in the trees of
    [regexp/syntax]. *)
Definition push_byte (c : ascii) (items : list Regexp) : list Regexp :=
  match items with
  | Literal l :: before => Literal (l ++ String c "") :: before
  | _ => Literal (String c "") :: items
  end.

Definition is_meta (c : ascii) : bool := url.is_one_of "\.+*?()|[]{}^$" c.

(** [items] holds, last first, what was read of the group being read;
    [outer] the unfinished groups around it. *)
Fixpoint parse (p : string) (items : list Regexp) (outer : list (list Regexp))
  : option Regexp :=
  match p with
  | EmptyString =>
      match outer with
      | [] => Some (seq_of (rev items))
      | _ :: _ => None
      end
  | String c p1 =>
      if Ascii.eqb c "(" then parse p1 [] (items :: outer)
      else if Ascii.eqb c ")" then
        match outer with
        | around :: outer' => parse p1 (Capture (seq_of (rev items)) :: around) outer'
        | [] => None
        end
      else if Ascii.eqb c "^" then parse p1 (BeginText :: items) outer
      else if Ascii.eqb c "$" then parse p1 (EndText :: items) outer
      else if Ascii.eqb c "." then
        match p1 with
        | String star p2 =>
            if Ascii.eqb star "*" then parse p2 (AnyNotNLStar :: items) outer else None
        | EmptyString => None
        end
      else if is_meta c then None
      else parse p1 (push_byte c items) outer
  end.

(** [regexp.Compile] *)
Definition Compile (pattern : string) : option Regexp := parse pattern [] [].

(** [regexp.MatchString(pattern, s)]: [(matched, err)]. *)
Definition MatchString (pattern s : string) : bool * option string :=
  match Compile pattern with
  | Some r => (Regexp_MatchString r s, None)
  | None => (false, Some ("error parsing regexp: " ++ pattern))
  end.

End regexp.

Import regexp.

Definition compositeIdPattern : string := "keys/.*/keyVersions/.*".

Definition importIdPattern : string :=
  "^managementEndpoint/(.*)/keys/(.*)/keyVersions/(.*)$".

(** The tree of [compositeIdPattern]. *)
Definition compositeIdRegexp : Regexp :=
  Concat (Literal "keys/")
    (Concat AnyNotNLStar (Concat (Literal "/keyVersions/") AnyNotNLStar)).

(** The tree of [importIdPattern]. *)
Definition importIdRegexp : Regexp :=
  Concat BeginText
    (Concat (Literal "managementEndpoint/")
      (Concat (Capture AnyNotNLStar)
        (Concat (Literal "/keys/")
          (Concat (Capture AnyNotNLStar)
            (Concat (Literal "/keyVersions/")
              (Concat (Capture AnyNotNLStar) EndText)))))).

(** The format the error message of [readKmsKeyVersion] asks for:
    [managementEndpoint/{managementEndpoint}/keys/{keyId}/keyVersions/{keyVersionId}]. *)
Definition import_format (managementEndpoint keyId keyVersionId : string) : string :=
  "managementEndpoint/" ++ managementEndpoint ++ "/keys/" ++ keyId
  ++ "/keyVersions/" ++ keyVersionId.

(** ** Errors

    Go's [error] values: the three messages this file builds with
    [fmt.Errorf], and the errors its collaborators hand back. *)

Inductive error : Type :=
| management_endpoint_missing
| id_should_be_of_format (id : string)
| illegal_compositeId (compositeId : string)
| collaborator_error (msg : string).

(** ** The composite identifier *)

Definition getKeyVersionCompositeId (keyId keyVersionId : string) : string :=
  let keyId := url.PathEscape keyId in
  let keyVersionId := url.PathEscape keyVersionId in
  let compositeId := "keys/" ++ keyId ++ "/keyVersions/" ++ keyVersionId in
  compositeId.

(** The three results [(keyId, keyVersionId, err)]; the named results are
    still empty at the early return. *)
Definition parseKeyVersionCompositeId (compositeId : string)
  : string * string * option error :=
  let parts := GoString.Split compositeId "/" in
  let match_ := fst (MatchString compositeIdPattern compositeId) in
  if negb match_ || negb (Nat.eqb (List.length parts) 4) then
    ("", "", Some (illegal_compositeId compositeId))
  else
    let keyId := fst (url.PathUnescape (nth 1 parts "")) in
    let keyVersionId := fst (url.PathUnescape (nth 3 parts "")) in
    (keyId, keyVersionId, None).

(** ** strconv.ParseBool: [(value, err)] *)

Module strconv.

Definition ParseBool (str : string) : bool * option error :=
  if existsb (String.eqb str) ["1"; "t"; "T"; "true"; "TRUE"; "True"] then (true, None)
  else if existsb (String.eqb str) ["0"; "f"; "F"; "false"; "FALSE"; "False"] then (false, None)
  else (false, Some (collaborator_error ("strconv.ParseBool: invalid syntax: " ++ str))).

End strconv.

(** ** The local store: [schema.ResourceData]

    The fields of this resource all have type string.  [Set] writes a
    field, [GetOkExists] tells a field that was never set from one set to
    the empty string, [Id]/[SetId] is the identifier slot.  The store of
    the library holds no field but the eight the resource declares; the map
    is used at these names only. *)

Record ResourceData : Type := mkResourceData {
  Id : string;
  fields : gmap string string
}.

Definition Set_ (d : ResourceData) (key value : string) : ResourceData :=
  {| Id := Id d; fields := <[key := value]> (fields d) |}.

Definition SetId (d : ResourceData) (v : string) : ResourceData :=
  {| Id := v; fields := fields d |}.

Definition GetOkExists (d : ResourceData) (key : string) : option string :=
  fields d !! key.

(** ** The remote service: package [oci_kms] *)

Module oci_kms.

(** Modelled from the spec: the constants [KeyVersionLifecycleState...] of
    the vendored package [keymanagement], which is not among the sources;
    the spec's data model lists these eight states. *)
Inductive KeyVersionLifecycleStateEnum : Type :=
| KeyVersionLifecycleStateCreating
| KeyVersionLifecycleStateEnabling
| KeyVersionLifecycleStateEnabled
| KeyVersionLifecycleStateDisabled
| KeyVersionLifecycleStateDeleting
| KeyVersionLifecycleStateSchedulingDeletion
| KeyVersionLifecycleStatePendingDeletion
| KeyVersionLifecycleStateDeleted.

#[global] Instance KeyVersionLifecycleStateEnum_eq_dec : EqDecision KeyVersionLifecycleStateEnum.
Proof. solve_decision. Defined.

End oci_kms.

Import oci_kms.

(** The types and operations of the collaborators this file calls but does
    not define: the time package, the SDK's retry policies and clients,
    and the remote key-management service itself.  The service answers a
    request in view of the calls it has received so far. *)
Class Sdk : Type := {
  Time : Type;
  (** [time.Parse(layout, value)] *)
  time_Parse : string -> string -> Time + error;
  (** [SDKTime.String()] on [SDKTime{Time: t}] *)
  SDKTime_String : Time -> string;
  (** [string(state)], the wire name of a lifecycle state *)
  state_string : KeyVersionLifecycleStateEnum -> string;
  RetryPolicy : Type;
  getRetryPolicy : bool -> string -> RetryPolicy;
  OracleClients : Type;
  KmsManagementClient : Type;
  (** the method [KmsManagementClient(endpoint)] of [OracleClients] *)
  OracleClients_KmsManagementClient : OracleClients -> string -> KmsManagementClient + error
}.

Section Resource.
Context `{sdk : Sdk}.

(** [oci_common.SDKTime] *)
Record SDKTime : Type := mkSDKTime { SDKTime_Time : Time }.

(** [oci_kms.KeyVersion], the fields this file reads; a pointer field is an
    option. *)
Record KeyVersion : Type := mkKeyVersion {
  KeyVersion_CompartmentId : option string;
  KeyVersion_Id : option string;
  KeyVersion_KeyId : option string;
  KeyVersion_TimeCreated : option SDKTime;
  KeyVersion_VaultId : option string;
  KeyVersion_LifecycleState : KeyVersionLifecycleStateEnum;
  KeyVersion_TimeOfDeletion : option SDKTime
}.

Record CreateKeyVersionRequest : Type := mkCreateKeyVersionRequest {
  Create_KeyId : option string;
  Create_RetryPolicy : option RetryPolicy
}.

Record GetKeyVersionRequest : Type := mkGetKeyVersionRequest {
  Get_KeyId : option string;
  Get_KeyVersionId : option string;
  Get_RetryPolicy : option RetryPolicy
}.

Record ScheduleKeyVersionDeletionRequest : Type := mkScheduleKeyVersionDeletionRequest {
  Schedule_KeyId : option string;
  Schedule_KeyVersionId : option string;
  Schedule_TimeOfDeletion : option SDKTime;
  Schedule_RetryPolicy : option RetryPolicy
}.

(** A call received by the remote service. *)
Inductive RemoteCall : Type :=
| CreateKeyVersion_call (client : KmsManagementClient) (request : CreateKeyVersionRequest)
| GetKeyVersion_call (client : KmsManagementClient) (request : GetKeyVersionRequest)
| ScheduleKeyVersionDeletion_call (client : KmsManagementClient)
    (request : ScheduleKeyVersionDeletionRequest).

(** What the program can observe and change outside its own data: the
    process environment, the calls the remote service has received, the
    lines written with [log.Printf], and the time spent in [time.Sleep]. *)
Record World : Type := mkWorld {
  environ : gmap string string;
  remote_calls : list RemoteCall;
  log_lines : list string;
  slept_seconds : nat
}.

Definition record_call (c : RemoteCall) (w : World) : World :=
  {| environ := environ w; remote_calls := remote_calls w ++ [c];
     log_lines := log_lines w; slept_seconds := slept_seconds w |}.

Definition log_Printf (line : string) (w : World) : World :=
  {| environ := environ w; remote_calls := remote_calls w;
     log_lines := log_lines w ++ [line]; slept_seconds := slept_seconds w |}.

Definition time_Sleep (seconds : nat) (w : World) : World :=
  {| environ := environ w; remote_calls := remote_calls w;
     log_lines := log_lines w; slept_seconds := slept_seconds w + seconds |}.

(** Modelled from the spec: the helper [getEnvSettingWithDefault], which is
    not among the sources; the environment toggle is a named setting, and an
    unset one takes the default. *)
Definition getEnvSettingWithDefault (w : World) (s dv : string) : string :=
  match environ w !! s with
  | Some v => v
  | None => dv
  end.

(** The answers of the remote service. *)
Class Service : Type := {
  CreateKeyVersion_response :
    KmsManagementClient -> CreateKeyVersionRequest -> list RemoteCall -> KeyVersion + error;
  GetKeyVersion_response :
    KmsManagementClient -> GetKeyVersionRequest -> list RemoteCall -> KeyVersion + error;
  ScheduleKeyVersionDeletion_response :
    KmsManagementClient -> ScheduleKeyVersionDeletionRequest -> list RemoteCall -> option error
}.

Context `{service : Service}.

(** [s.Client.CreateKeyVersion(ctx, request)] and its two siblings: the
    service answers, and has received one more call. *)
Definition Client_CreateKeyVersion (c : KmsManagementClient) (request : CreateKeyVersionRequest)
    (w : World) : (KeyVersion + error) * World :=
  (CreateKeyVersion_response c request (remote_calls w),
   record_call (CreateKeyVersion_call c request) w).

Definition Client_GetKeyVersion (c : KmsManagementClient) (request : GetKeyVersionRequest)
    (w : World) : (KeyVersion + error) * World :=
  (GetKeyVersion_response c request (remote_calls w),
   record_call (GetKeyVersion_call c request) w).

Definition Client_ScheduleKeyVersionDeletion (c : KmsManagementClient)
    (request : ScheduleKeyVersionDeletionRequest) (w : World) : option error * World :=
  (ScheduleKeyVersionDeletion_response c request (remote_calls w),
   record_call (ScheduleKeyVersionDeletion_call c request) w).

(** ** The synchronizer *)

(** [s.D] points to the caller's [ResourceData]: the field [D] is that one
    store, and a method that writes to it returns the synchronizer with the
    store written. *)
Record KmsKeyVersionResourceCrud : Type := mkCrud {
  D : ResourceData;
  Client : option KmsManagementClient;
  Res : option KeyVersion;
  DisableNotFoundRetries : bool
}.

Definition with_D (s : KmsKeyVersionResourceCrud) (d : ResourceData) :=
  {| D := d; Client := Client s; Res := Res s;
     DisableNotFoundRetries := DisableNotFoundRetries s |}.

Definition with_Res (s : KmsKeyVersionResourceCrud) (r : KeyVersion) :=
  {| D := D s; Client := Client s; Res := Some r;
     DisableNotFoundRetries := DisableNotFoundRetries s |}.

(** The outcome of a method: its [error] result ([None] is [nil]), the
    synchronizer and the world after it; [Panic] when it dereferences a nil
    pointer. *)
Inductive outcome (A : Type) : Type :=
| Returns (err : option error) (a : A) (w : World)
| Panic.
Arguments Returns {A} err a w.
Arguments Panic {A}.

(** [ID]: both pointers of the snapshot are dereferenced. *)
Definition ID (s : KmsKeyVersionResourceCrud) : option string :=
  match Res s with
  | Some res =>
      match KeyVersion_KeyId res, KeyVersion_Id res with
      | Some keyId, Some id => Some (getKeyVersionCompositeId keyId id)
      | _, _ => None
      end
  | None => None
  end.

Definition CreatedPending (s : KmsKeyVersionResourceCrud) : list KeyVersionLifecycleStateEnum :=
  [KeyVersionLifecycleStateCreating; KeyVersionLifecycleStateEnabling].

Definition CreatedTarget (s : KmsKeyVersionResourceCrud) : list KeyVersionLifecycleStateEnum :=
  [KeyVersionLifecycleStateEnabled].

Definition DeletedPending (s : KmsKeyVersionResourceCrud) : list KeyVersionLifecycleStateEnum :=
  [KeyVersionLifecycleStateDisabled; KeyVersionLifecycleStateDeleting;
   KeyVersionLifecycleStateSchedulingDeletion].

Definition DeletedTarget (s : KmsKeyVersionResourceCrud) : list KeyVersionLifecycleStateEnum :=
  [KeyVersionLifecycleStateDeleted; KeyVersionLifecycleStatePendingDeletion].

(** [time.RFC3339Nano] *)
Definition RFC3339Nano : string := "2006-01-02T15:04:05.999999999Z07:00".

Definition Create (s : KmsKeyVersionResourceCrud) (w : World)
  : outcome KmsKeyVersionResourceCrud :=
  let request :=
    {| Create_KeyId := GetOkExists (D s) "key_id";
       Create_RetryPolicy := Some (getRetryPolicy (DisableNotFoundRetries s) "kms") |} in
  match Client s with
  | None => Panic
  | Some client =>
      match Client_CreateKeyVersion client request w with
      | (inr err, w') => Returns (Some err) s w'
      | (inl response, w') => Returns None (with_Res s response) (time_Sleep 30 w')
      end
  end.

Definition Get (s : KmsKeyVersionResourceCrud) (w : World)
  : outcome KmsKeyVersionResourceCrud :=
  let '(keyId, keyVersionId, err) := parseKeyVersionCompositeId (Id (D s)) in
  match err with
  | None =>
      let request :=
        {| Get_KeyId := Some keyId;
           Get_KeyVersionId := Some keyVersionId;
           Get_RetryPolicy := Some (getRetryPolicy (DisableNotFoundRetries s) "kms") |} in
      match Client s with
      | None => Panic
      | Some client =>
          match Client_GetKeyVersion client request w with
          | (inr err, w') => Returns (Some err) s w'
          | (inl response, w') => Returns None (with_Res s response) w'
          end
      end
  | Some err =>
      Returns (Some err) s
        (log_Printf ("[WARN] Get() unable to parse current ID: " ++ Id (D s)) w)
  end.

Definition Delete (s : KmsKeyVersionResourceCrud) (w : World)
  : outcome KmsKeyVersionResourceCrud :=
  let '(keyId, keyVersionId, err) := parseKeyVersionCompositeId (Id (D s)) in
  match err with
  | None =>
      let send (timeOfDeletion : option SDKTime) :=
        let request :=
          {| Schedule_KeyId := Some keyId;
             Schedule_KeyVersionId := Some keyVersionId;
             Schedule_TimeOfDeletion := timeOfDeletion;
             Schedule_RetryPolicy := Some (getRetryPolicy (DisableNotFoundRetries s) "kms") |} in
        match Client s with
        | None => Panic
        | Some client =>
            let '(error, w') := Client_ScheduleKeyVersionDeletion client request w in
            Returns error s w'
        end in
      match GetOkExists (D s) "time_of_deletion" with
      | Some timeOfDeletion =>
          match time_Parse RFC3339Nano timeOfDeletion with
          | inr err => Returns (Some err) s w
          | inl tmpTime => send (Some {| SDKTime_Time := tmpTime |})
          end
      | None => send None
      end
  | Some err =>
      Returns (Some err) s
        (log_Printf ("[WARN] Get() unable to parse current ID: " ++ Id (D s)) w)
  end.

(** The first step of [SetData]: the two fields read off the identifier. *)
Definition SetData_identifier (d : ResourceData) (w : World) : ResourceData * World :=
  let '(keyId, keyVersionId, err) := parseKeyVersionCompositeId (Id d) in
  match err with
  | None => (Set_ (Set_ d "key_id" keyId) "key_version_id" keyVersionId, w)
  | Some _ => (d, log_Printf ("[WARN] SetData() unable to parse current ID: " ++ Id d) w)
  end.

Definition Set_if_present {A : Type} (d : ResourceData) (key : string)
    (render : A -> string) (field : option A) : ResourceData :=
  match field with
  | Some v => Set_ d key (render v)
  | None => d
  end.

(** The second step of [SetData]: the fields read off the snapshot, in the
    order of the source. *)
Definition SetData_snapshot (res : KeyVersion) (d : ResourceData) : ResourceData :=
  let d := Set_if_present d "compartment_id" id (KeyVersion_CompartmentId res) in
  let d := Set_if_present d "key_id" id (KeyVersion_KeyId res) in
  let d := Set_ d "state" (state_string (KeyVersion_LifecycleState res)) in
  let d := Set_if_present d "time_created"
             (fun t => SDKTime_String (SDKTime_Time t)) (KeyVersion_TimeCreated res) in
  let d := Set_if_present d "time_of_deletion"
             (fun t => SDKTime_String (SDKTime_Time t)) (KeyVersion_TimeOfDeletion res) in
  let d := Set_if_present d "vault_id" id (KeyVersion_VaultId res) in
  d.

Definition SetData (s : KmsKeyVersionResourceCrud) (w : World)
  : outcome KmsKeyVersionResourceCrud :=
  let '(d, w) := SetData_identifier (D s) w in
  match Res s with
  | None => Panic
  | Some res => Returns None (with_D s (SetData_snapshot res d)) w
  end.

(** ** The entry points *)

(** The generic drivers of the provider, which are not among the sources:
    they are given the synchronizer and run its methods. *)
Class Driver : Type := {
  CreateResource : KmsKeyVersionResourceCrud -> World -> outcome ResourceData;
  ReadResource : KmsKeyVersionResourceCrud -> World -> outcome ResourceData;
  DeleteResource : KmsKeyVersionResourceCrud -> World -> outcome ResourceData
}.

Context `{driver : Driver}.

Definition new_sync (d : ResourceData) (client : KmsManagementClient) :=
  {| D := d; Client := Some client; Res := None; DisableNotFoundRetries := false |}.

Definition createKmsKeyVersion (d : ResourceData) (m : OracleClients) (w : World)
  : outcome ResourceData :=
  match GetOkExists d "management_endpoint" with
  | None => Returns (Some management_endpoint_missing) d w
  | Some endpoint =>
      match OracleClients_KmsManagementClient m endpoint with
      | inr err => Returns (Some err) d w
      | inl client => CreateResource (new_sync d client) w
      end
  end.

Definition readKmsKeyVersion (d : ResourceData) (m : OracleClients) (w : World)
  : outcome ResourceData :=
  let rest (d : ResourceData) (endpoint : string) :=
    match OracleClients_KmsManagementClient m endpoint with
    | inr err => Returns (Some err) d w
    | inl client => ReadResource (new_sync d client) w
    end in
  match GetOkExists d "management_endpoint" with
  | Some endpoint => rest d endpoint
  | None =>
      let id := Id d in
      match Compile importIdPattern with
      | None => Panic
      | Some regex =>
          let tokens := FindStringSubmatch regex id in
          if Nat.eqb (List.length tokens) 4 then
            let endpoint := nth 1 tokens "" in
            let d := Set_ d "management_endpoint" endpoint in
            let d := Set_ d "key_id" (nth 2 tokens "") in
            let d := Set_ d "key_version_id" (nth 3 tokens "") in
            let d := SetId d (getKeyVersionCompositeId (nth 2 tokens "") (nth 3 tokens "")) in
            rest d endpoint
          else Returns (Some (id_should_be_of_format id)) d w
      end
  end.

Definition deleteKmsKeyVersion (d : ResourceData) (m : OracleClients) (w : World)
  : outcome ResourceData :=
  let disableKmsVersionDeletion :=
    fst (strconv.ParseBool (getEnvSettingWithDefault w "disable_kms_version_delete" "false")) in
  if disableKmsVersionDeletion then Returns None d w
  else
    match GetOkExists d "management_endpoint" with
    | None => Returns (Some management_endpoint_missing) d w
    | Some endpoint =>
        match OracleClients_KmsManagementClient m endpoint with
        | inr err => Returns (Some err) d w
        | inl client => DeleteResource (new_sync d client) w
        end
    end.

End Resource.

Arguments Returns {sdk A} err a w.
Arguments Panic {sdk A}.

(** ** A stub of the collaborators

    A service that knows one key version and counts its calls, a clock that
    reads one timestamp, and drivers that run the methods once. *)

Module Stub.

Definition parse_time (layout value : string) : string + error :=
  if String.eqb layout "2006-01-02T15:04:05.999999999Z07:00"
     && String.eqb value "2019-08-01T00:00:00.5Z"
  then inl value
  else inr (collaborator_error ("parsing time " ++ value)).

Definition wire_name (state : KeyVersionLifecycleStateEnum) : string :=
  match state with
  | KeyVersionLifecycleStateCreating => "CREATING"
  | KeyVersionLifecycleStateEnabling => "ENABLING"
  | KeyVersionLifecycleStateEnabled => "ENABLED"
  | KeyVersionLifecycleStateDisabled => "DISABLED"
  | KeyVersionLifecycleStateDeleting => "DELETING"
  | KeyVersionLifecycleStateSchedulingDeletion => "SCHEDULING_DELETION"
  | KeyVersionLifecycleStatePendingDeletion => "PENDING_DELETION"
  | KeyVersionLifecycleStateDeleted => "DELETED"
  end.

#[export] Instance sdk : Sdk := {|
  Time := string;
  time_Parse := parse_time;
  SDKTime_String := fun t => t;
  state_string := wire_name;
  RetryPolicy := bool * string;
  getRetryPolicy := fun disableNotFoundRetries service => (disableNotFoundRetries, service);
  OracleClients := unit;
  KmsManagementClient := string;
  OracleClients_KmsManagementClient := fun _ endpoint => inl endpoint
|}.

Definition clients : OracleClients := tt.

Definition the_key_version : KeyVersion :=
  {| KeyVersion_CompartmentId := Some "compartment1";
     KeyVersion_Id := Some "v1";
     KeyVersion_KeyId := Some "k1";
     KeyVersion_TimeCreated := Some {| SDKTime_Time := "2019-08-01T00:00:00.5Z" |};
     KeyVersion_VaultId := None;
     KeyVersion_LifecycleState := KeyVersionLifecycleStateEnabled;
     KeyVersion_TimeOfDeletion := None |}.

#[export] Instance service : Service := {|
  CreateKeyVersion_response := fun _ _ _ => inl the_key_version;
  GetKeyVersion_response := fun _ request _ =>
    match Get_KeyId request, Get_KeyVersionId request with
    | Some "k1", Some "v1" => inl the_key_version
    | _, _ => inr (collaborator_error "NotFound")
    end;
  ScheduleKeyVersionDeletion_response := fun _ _ _ => None
|}.

Definition run_one (step : KmsKeyVersionResourceCrud -> World -> outcome KmsKeyVersionResourceCrud)
    (s : KmsKeyVersionResourceCrud) (w : World) : outcome ResourceData :=
  match step s w with
  | Returns err s' w' => Returns err (D s') w'
  | Panic => Panic
  end.

#[export] Instance driver : Driver := {|
  CreateResource := run_one Create;
  ReadResource := run_one Get;
  DeleteResource := run_one Delete
|}.

Definition world0 : World :=
  {| environ := ∅; remote_calls := []; log_lines := []; slept_seconds := 0 |}.

Definition world_guarded : World :=
  {| environ := {[ "disable_kms_version_delete" := "true" ]};
     remote_calls := []; log_lines := []; slept_seconds := 0 |}.

Definition world_unparsable : World :=
  {| environ := {[ "disable_kms_version_delete" := "yes" ]};
     remote_calls := []; log_lines := []; slept_seconds := 0 |}.

Definition stored (id : string) (kvs : list (string * string)) : ResourceData :=
  {| Id := id; fields := list_to_map kvs |}.

Definition synced (d : ResourceData) (res : option KeyVersion) : KmsKeyVersionResourceCrud :=
  {| D := d; Client := Some "ep1"; Res := res; DisableNotFoundRetries := false |}.

End Stub.

(** ** Package [healthchecks]: the protocol of a ping monitor *)

Module healthchecks.

(** [PingMonitorSummaryProtocolEnum], an enum with underlying type string. *)
Definition PingMonitorSummaryProtocolIcmp : string := "ICMP".
Definition PingMonitorSummaryProtocolTcp : string := "TCP".

Definition mappingPingMonitorSummaryProtocol : gmap string string :=
  list_to_map [ ("ICMP", PingMonitorSummaryProtocolIcmp);
                ("TCP", PingMonitorSummaryProtocolTcp) ].

(** [GetPingMonitorSummaryProtocolEnumValues].  A [range] over a map visits
    every entry once, in an order the language leaves open; [order] lists
    the keys in the order of this run, and each visit appends the value
    found there. *)
Definition GetPingMonitorSummaryProtocolEnumValues (order : list string) : list string :=
  fold_left
    (fun values k =>
       match mappingPingMonitorSummaryProtocol !! k with
       | Some v => (values ++ [v])%list
       | None => values
       end)
    order [].

(** The orders a [range] over the mapping can take. *)
Definition range_order (order : list string) : Prop :=
  order ≡ₚ elements (dom mappingPingMonitorSummaryProtocol).

End healthchecks.

(** ** Vocabulary of the properties *)

(** [strings.Join(pieces, sep)] for a one-byte separator. *)
Fixpoint Join (pieces : list string) (sep : ascii) : string :=
  match pieces with
  | [] => ""
  | [piece] => piece
  | piece :: rest => piece ++ String sep (Join rest sep)
  end.

(** A visible ASCII byte: [!] to [~], so no control byte, no space and
    nothing above 127. *)
Definition visible_byte (c : ascii) : bool := url.in_range "!" "~" c.

(** A byte [url.PathEscape] keeps as it is. *)
Definition kept_byte (c : ascii) : bool := negb (url.shouldEscape c).

(** A stub whose client factory knows no endpoint. *)
Module StubNoClient.

#[export] Instance sdk : Sdk := {|
  Time := string;
  time_Parse := Stub.parse_time;
  SDKTime_String := fun t => t;
  state_string := Stub.wire_name;
  RetryPolicy := bool * string;
  getRetryPolicy := fun disableNotFoundRetries service => (disableNotFoundRetries, service);
  OracleClients := unit;
  KmsManagementClient := string;
  OracleClients_KmsManagementClient :=
    fun _ endpoint => inr (collaborator_error ("no client for " ++ endpoint))
|}.

Definition clients : OracleClients := tt.

#[export] Instance service : Service := {|
  CreateKeyVersion_response := fun _ _ _ => inr (collaborator_error "unreachable");
  GetKeyVersion_response := fun _ _ _ => inr (collaborator_error "unreachable");
  ScheduleKeyVersionDeletion_response := fun _ _ _ => None
|}.

#[export] Instance driver : Driver := {|
  CreateResource := fun s w => Returns None (D s) w;
  ReadResource := fun s w => Returns None (D s) w;
  DeleteResource := fun s w => Returns None (D s) w
|}.

Definition world0 : World :=
  {| environ := ∅; remote_calls := []; log_lines := []; slept_seconds := 0 |}.

Definition synced (d : ResourceData) : KmsKeyVersionResourceCrud :=
  {| D := d; Client := Some "ep1"; Res := None; DisableNotFoundRetries := false |}.

End StubNoClient.

(** * Properties *)

(** ** Strings *)

Module GoStringFacts.
Import GoString.

Lemma append_nil_r (s : string) : s ++ "" = s.
Proof. induction s as [|c s IH]; simpl; [reflexivity | now rewrite IH]. Qed.

Lemma append_assoc (a b c : string) : (a ++ b) ++ c = a ++ (b ++ c).
Proof. induction a as [|x a IH]; simpl; [reflexivity | now rewrite IH]. Qed.

Lemma length_append (a b : string) :
  String.length (a ++ b) = String.length a + String.length b.
Proof. induction a as [|x a IH]; simpl; [reflexivity | now rewrite IH]. Qed.

Lemma all_bytes_append (p : ascii -> bool) (a b : string) :
  all_bytes p (a ++ b) = all_bytes p a && all_bytes p b.
Proof.
  induction a as [|x a IH]; simpl; [reflexivity|].
  rewrite IH. now rewrite andb_assoc.
Qed.

Lemma all_bytes_impl (p q : ascii -> bool) (s : string) :
  (forall c, p c = true -> q c = true) -> all_bytes p s = true -> all_bytes q s = true.
Proof.
  intros Hpq. induction s as [|c s IH]; simpl; [reflexivity|].
  intros [Hc Hs]%andb_true_iff. rewrite (Hpq _ Hc). simpl. now apply IH.
Qed.

Lemma count_byte_append (sep : ascii) (a b : string) :
  count_byte sep (a ++ b) = count_byte sep a + count_byte sep b.
Proof. induction a as [|x a IH]; simpl; [reflexivity | rewrite IH; lia]. Qed.

Lemma count_byte_0 (sep : ascii) (s : string) :
  count_byte sep s = 0 <-> all_bytes (fun c => negb (Ascii.eqb c sep)) s = true.
Proof.
  induction s as [|c s IH]; simpl; [tauto|].
  destruct (Ascii.eqb c sep); simpl; [split; [lia | discriminate] | exact IH].
Qed.

Lemma strip_prefix_append (p s : string) : strip_prefix p (p ++ s) = Some s.
Proof.
  induction p as [|c p IH]; simpl; [reflexivity|]. now rewrite Ascii.eqb_refl.
Qed.

Lemma strip_prefix_Some (p s r : string) : strip_prefix p s = Some r -> s = p ++ r.
Proof.
  revert s. induction p as [|c p IH]; simpl; intros s H.
  - now inversion H.
  - destruct s as [|b s]; [discriminate|].
    destruct (Ascii.eqb_spec c b) as [->|]; [|discriminate].
    now rewrite (IH _ H).
Qed.

Lemma take_append (a b : string) : take (String.length a) (a ++ b) = a.
Proof. induction a as [|c a IH]; simpl; [now destruct b | now rewrite IH]. Qed.

Lemma Split_not_nil (s : string) (sep : ascii) : Split s sep <> [].
Proof.
  induction s as [|c s IH]; simpl; [discriminate|].
  destruct (Ascii.eqb c sep); [discriminate|].
  destruct (Split s sep); [contradiction | discriminate].
Qed.

Lemma Split_length (s : string) (sep : ascii) :
  List.length (Split s sep) = S (count_byte sep s).
Proof.
  induction s as [|c s IH]; simpl; [reflexivity|].
  destruct (Ascii.eqb c sep); simpl; [now rewrite IH|].
  destruct (Split s sep) eqn:E; [now destruct (Split_not_nil s sep) | exact IH].
Qed.

(** A piece without separator, a separator, and the rest. *)
Lemma Split_piece (a b : string) (sep : ascii) :
  count_byte sep a = 0 ->
  Split (a ++ String sep b) sep = a :: Split b sep.
Proof.
  induction a as [|c a IH]; simpl.
  - intros _. now rewrite Ascii.eqb_refl.
  - destruct (Ascii.eqb c sep); [discriminate|]. intros H.
    now rewrite (IH H).
Qed.

Lemma Split_last (a : string) (sep : ascii) :
  count_byte sep a = 0 -> Split a sep = [a].
Proof.
  induction a as [|c a IH]; simpl; [reflexivity|].
  destruct (Ascii.eqb c sep); [discriminate|]. intros H. now rewrite (IH H).
Qed.

End GoStringFacts.

(** ** Escaping *)

Module urlFacts.
Import GoString GoStringFacts url.

Ltac each_byte c := destruct c as [[] [] [] [] [] [] [] []].

(** The two digits written for a byte are hex digits, and read back as
    that byte. *)
Lemma hex_digits_back (c : ascii) :
  let h := upperhex (nat_of_ascii c / 16) in
  let l := upperhex (nat_of_ascii c mod 16) in
  ishex h && ishex l = true /\ ascii_of_nat (unhex h * 16 + unhex l) = c.
Proof. each_byte c; vm_compute; split; reflexivity. Qed.

Lemma upperhex_plain (n : nat) : plain_byte (upperhex n) = true.
Proof. do 16 (destruct n as [|n]; [reflexivity|]). reflexivity. Qed.

Lemma kept_byte_plain (c : ascii) : shouldEscape c = false -> plain_byte c = true.
Proof. each_byte c; vm_compute; congruence. Qed.

Lemma percent_escaped : shouldEscape "%" = true.
Proof. reflexivity. Qed.

Lemma kept_byte_not_percent (c : ascii) : shouldEscape c = false -> Ascii.eqb c "%" = false.
Proof.
  intros E. pose proof (kept_byte_plain c E) as Hp. unfold plain_byte in Hp.
  apply andb_true_iff in Hp as [_ Hp]. now apply negb_true_iff in Hp.
Qed.

Lemma unescape_check_escaped (h l : ascii) (s : string) :
  ishex h && ishex l = true ->
  unescape_check (String "%" (String h (String l s))) = unescape_check s.
Proof. intros H. cbn [unescape_check]. now rewrite Ascii.eqb_refl, H. Qed.

Lemma unescape_check_kept (c : ascii) (s : string) :
  Ascii.eqb c "%" = false -> unescape_check (String c s) = unescape_check s.
Proof. intros H. cbn [unescape_check]. now rewrite H. Qed.

Lemma unescape_build_escaped (h l : ascii) (s : string) :
  unescape_build (String "%" (String h (String l s)))
  = String (ascii_of_nat (unhex h * 16 + unhex l)) (unescape_build s).
Proof. cbn [unescape_build]. now rewrite Ascii.eqb_refl. Qed.

Lemma unescape_build_kept (c : ascii) (s : string) :
  Ascii.eqb c "%" = false -> unescape_build (String c s) = String c (unescape_build s).
Proof. intros H. cbn [unescape_build]. now rewrite H. Qed.

Lemma unescape_check_PathEscape (s : string) : unescape_check (PathEscape s) = None.
Proof.
  induction s as [|c s IH]; [reflexivity|].
  cbn [PathEscape]. destruct (shouldEscape c) eqn:E.
  - rewrite unescape_check_escaped; [exact IH | apply hex_digits_back].
  - rewrite unescape_check_kept; [exact IH | now apply kept_byte_not_percent].
Qed.

Lemma unescape_build_PathEscape (s : string) : unescape_build (PathEscape s) = s.
Proof.
  induction s as [|c s IH]; [reflexivity|].
  cbn [PathEscape]. destruct (shouldEscape c) eqn:E.
  - rewrite unescape_build_escaped, IH. f_equal. apply hex_digits_back.
  - rewrite unescape_build_kept, IH; [reflexivity | now apply kept_byte_not_percent].
Qed.

(** Unescaping undoes escaping, for every byte string. *)
Lemma PathUnescape_PathEscape (s : string) : PathUnescape (PathEscape s) = (s, None).
Proof.
  unfold PathUnescape.
  now rewrite unescape_check_PathEscape, unescape_build_PathEscape.
Qed.

(** An escaped segment holds no slash and no newline. *)
Lemma PathEscape_plain (s : string) :
  all_bytes (fun c => negb (Ascii.eqb c "/") && negb (Ascii.eqb c "010")) (PathEscape s) = true.
Proof.
  assert (P : forall c, plain_byte c = true ->
            negb (Ascii.eqb c "/") && negb (Ascii.eqb c "010") = true).
  { intros c H. unfold plain_byte in H. now apply andb_true_iff in H as [-> _]. }
  induction s as [|c s IH]; [reflexivity|].
  cbn [PathEscape]. destruct (shouldEscape c) eqn:E; cbn [all_bytes].
  - rewrite !(P (upperhex _)) by apply upperhex_plain. now rewrite IH.
  - rewrite (P _ (kept_byte_plain c E)). exact IH.
Qed.

Lemma PathEscape_no_slash (s : string) : count_byte "/" (PathEscape s) = 0.
Proof.
  apply count_byte_0. eapply all_bytes_impl; [|apply PathEscape_plain].
  intros c H. now apply andb_true_iff in H as [-> _].
Qed.

Lemma PathEscape_no_newline (s : string) : all_bytes regexp.notNL (PathEscape s) = true.
Proof.
  eapply all_bytes_impl; [|apply PathEscape_plain].
  intros c H. apply andb_true_iff in H as [_ H]. exact H.
Qed.

End urlFacts.

(** ** Matching *)

Module regexpFacts.
Import GoString GoStringFacts regexp.

(** The trees are those of the patterns. *)
Lemma Compile_compositeIdPattern : Compile compositeIdPattern = Some compositeIdRegexp.
Proof. reflexivity. Qed.

Lemma Compile_importIdPattern : Compile importIdPattern = Some importIdRegexp.
Proof. reflexivity. Qed.

Section StarAny.
Context {R : Type}.
Implicit Types (k : nat -> string -> option R).

(** The empty run is always among the alternatives. *)
Lemma star_any_keep k pos s : is_Some (k pos s) -> is_Some (star_any pos s k).
Proof.
  intros H. destruct s as [|c s]; cbn [star_any]; [exact H|].
  destruct (notNL c); [|exact H].
  destruct (star_any (S pos) s k); [eauto | exact H].
Qed.

(** Every run of bytes other than the newline is among them. *)
Lemma star_any_complete k pos x rest :
  all_bytes notNL x = true ->
  is_Some (k (pos + String.length x) rest) ->
  is_Some (star_any pos (x ++ rest) k).
Proof.
  revert pos. induction x as [|c x IH]; intros pos Hx Hk.
  - apply star_any_keep. now rewrite Nat.add_0_r in Hk.
  - cbn [all_bytes] in Hx. apply andb_true_iff in Hx as [Hc Hx].
    cbn [String.append star_any]. rewrite Hc.
    destruct (IH (S pos) Hx) as [r ->]; [|eauto].
    cbn [String.length] in Hk. now replace (S pos + String.length x)
      with (pos + S (String.length x)) by lia.
Qed.

(** And a result comes from one of them. *)
Lemma star_any_sound k pos s r :
  star_any pos s k = Some r ->
  exists x rest, s = x ++ rest /\ all_bytes notNL x = true
                 /\ k (pos + String.length x) rest = Some r.
Proof.
  revert pos. induction s as [|c s IH]; intros pos H; cbn [star_any] in H.
  - exists "", "". cbn. now rewrite Nat.add_0_r.
  - assert (Hempty : k pos (String c s) = Some r ->
            exists x rest, String c s = x ++ rest /\ all_bytes notNL x = true
                           /\ k (pos + String.length x) rest = Some r).
    { intros Hk. exists "", (String c s). cbn. now rewrite Nat.add_0_r. }
    destruct (notNL c) eqn:Hc; [|auto].
    destruct (star_any (S pos) s k) as [r'|] eqn:E; [|auto].
    injection H as ->. destruct (IH _ E) as (x & rest & -> & Hx & Hk).
    exists (String c x), rest. cbn [String.append all_bytes String.length].
    rewrite Hc, Hx. repeat split.
    now replace (pos + S (String.length x)) with (S pos + String.length x) by lia.
Qed.
End StarAny.

(** A match of the composite pattern from a given offset. *)
Lemma match_at_composite (pos : nat) (s : string) :
  is_Some (match_at compositeIdRegexp pos s) <->
  exists x rest, s = "keys/" ++ x ++ "/keyVersions/" ++ rest /\ all_bytes notNL x = true.
Proof.
  unfold match_at, compositeIdRegexp. cbn [run]. split.
  - intros [r H].
    destruct (strip_prefix "keys/" s) as [s1|] eqn:E1; [|discriminate].
    apply strip_prefix_Some in E1 as ->.
    apply star_any_sound in H as (x & rest & -> & Hx & H).
    destruct (strip_prefix "/keyVersions/" rest) as [s2|] eqn:E2; [|discriminate].
    apply strip_prefix_Some in E2 as ->. now exists x, s2.
  - intros (x & rest & -> & Hx).
    rewrite strip_prefix_append. apply star_any_complete; [exact Hx|].
    rewrite strip_prefix_append. apply star_any_keep. eauto.
Qed.

Lemma search_is_Some (r : Regexp) (pos : nat) (s : string) :
  is_Some (search r pos s) <->
  exists pre post, s = pre ++ post /\ is_Some (match_at r (pos + String.length pre) post).
Proof.
  revert pos. induction s as [|c s IH]; intros pos; cbn [search].
  - destruct (match_at r pos "") as [[e caps]|] eqn:E.
    + split; [intros _ | eauto]. exists "", "". cbn. rewrite Nat.add_0_r, E. eauto.
    + split; [intros [? ?]; discriminate|].
      intros (pre & post & Hs & Hm). destruct pre; [|discriminate].
      cbn in Hs. subst post. cbn in Hm. rewrite Nat.add_0_r, E in Hm.
      now destruct Hm.
  - destruct (match_at r pos (String c s)) as [[e caps]|] eqn:E.
    + split; [intros _ | eauto]. exists "", (String c s). cbn.
      rewrite Nat.add_0_r, E. eauto.
    + rewrite IH. split.
      * intros (pre & post & -> & Hm). exists (String c pre), post. split; [reflexivity|].
        cbn [String.length]. now replace (pos + S (String.length pre))
          with (S pos + String.length pre) by lia.
      * intros (pre & post & Hs & Hm). destruct pre as [|c' pre].
        -- cbn in Hs. subst post. cbn in Hm. rewrite Nat.add_0_r, E in Hm.
           now destruct Hm.
        -- cbn in Hs. injection Hs as -> ->. exists pre, post. split; [reflexivity|].
           cbn [String.length] in Hm. now replace (S pos + String.length pre)
             with (pos + S (String.length pre)) by lia.
Qed.

(** The composite pattern is not anchored: it matches a string that holds
    [keys/], a run without newline, and [/keyVersions/], anywhere. *)
Lemma MatchString_composite (s : string) :
  MatchString compositeIdPattern s = (true, None) <->
  exists pre x post,
    s = pre ++ "keys/" ++ x ++ "/keyVersions/" ++ post /\ all_bytes notNL x = true.
Proof.
  change (MatchString compositeIdPattern s)
    with (Regexp_MatchString compositeIdRegexp s, @None string).
  unfold Regexp_MatchString.
  pose proof (search_is_Some compositeIdRegexp 0 s) as Hs.
  destruct (search compositeIdRegexp 0 s) as [m|].
  - split; [intros _ | reflexivity].
    destruct Hs as [Hs _]. destruct Hs as (pre & post & -> & Hm); [eauto|].
    apply match_at_composite in Hm as (x & rest & -> & Hx). now exists pre, x, rest.
  - split; [discriminate|]. intros (pre & x & post & -> & Hx).
    destruct Hs as [_ Hs]. destruct Hs as [? ?]; [|discriminate].
    exists pre, ("keys/" ++ x ++ "/keyVersions/" ++ post). split; [reflexivity|].
    apply match_at_composite. now exists x, post.
Qed.

Lemma MatchString_composite_bool (s : string) :
  snd (MatchString compositeIdPattern s) = None.
Proof. reflexivity. Qed.

End regexpFacts.

(** ** The composite identifier codec *)

Module codecFacts.
Import GoString GoStringFacts url urlFacts regexp regexpFacts.

(** The four pieces of a string of the composite shape. *)
Lemma Split_composite (pre x post : string) :
  count_byte "/" pre = 0 -> count_byte "/" x = 0 -> count_byte "/" post = 0 ->
  Split (pre ++ "keys/" ++ x ++ "/keyVersions/" ++ post) "/"
  = [pre ++ "keys"; x; "keyVersions"; post].
Proof.
  intros Hpre Hx Hpost.
  replace (pre ++ "keys/" ++ x ++ "/keyVersions/" ++ post)
    with ((pre ++ "keys") ++ String "/" (x ++ String "/" ("keyVersions" ++ String "/" post))).
  2:{ rewrite append_assoc. reflexivity. }
  rewrite Split_piece by (rewrite count_byte_append, Hpre; reflexivity).
  rewrite Split_piece by exact Hx.
  rewrite Split_piece by reflexivity.
  now rewrite Split_last by exact Hpost.
Qed.

Lemma count_composite (pre x post : string) :
  count_byte "/" (pre ++ "keys/" ++ x ++ "/keyVersions/" ++ post)
  = count_byte "/" pre + count_byte "/" x + count_byte "/" post + 3.
Proof.
  rewrite !count_byte_append. cbn [count_byte Ascii.eqb Bool.eqb]. lia.
Qed.

(** What [parseKeyVersionCompositeId] accepts: four pieces of which the
    first ends in [keys], the second holds no newline and the third is
    [keyVersions]; and what it returns then. *)
Lemma parse_accepts (s : string) :
  snd (parseKeyVersionCompositeId s) = None <->
  exists pre x post,
    s = pre ++ "keys/" ++ x ++ "/keyVersions/" ++ post
    /\ count_byte "/" pre = 0 /\ count_byte "/" x = 0 /\ count_byte "/" post = 0
    /\ all_bytes notNL x = true.
Proof.
  unfold parseKeyVersionCompositeId. cbv zeta.
  rewrite Split_length.
  pose proof (MatchString_composite s) as HM.
  destruct (MatchString compositeIdPattern s) as [[|] e] eqn:EM; cbn [fst negb orb].
  - assert (e = None) as -> by (now pose proof (MatchString_composite_bool s) as H; rewrite EM in H).
    destruct HM as [HM _]. destruct (HM eq_refl) as (pre & x & post & -> & Hx).
    rewrite count_composite.
    destruct (Nat.eqb_spec (S (count_byte "/" pre + count_byte "/" x + count_byte "/" post + 3)) 4)
      as [Hc|Hc]; cbn [negb snd].
    + split; [intros _ | reflexivity]. exists pre, x, post. repeat split; try lia. exact Hx.
    + split; [discriminate|]. intros (pre' & x' & post' & Heq & H1 & H2 & H3 & _).
      exfalso. apply Hc. apply (f_equal (count_byte "/")) in Heq.
      rewrite !count_composite in Heq. lia.
  - cbn [snd]. split; [discriminate|].
    intros (pre & x & post & -> & _ & _ & _ & Hx). exfalso.
    destruct HM as [_ HM].
    assert (H : (false, e) = (true, @None string)) by (apply HM; now exists pre, x, post).
    discriminate.
Qed.

Lemma parse_composite (pre x post : string) :
  count_byte "/" pre = 0 -> count_byte "/" x = 0 -> count_byte "/" post = 0 ->
  all_bytes notNL x = true ->
  parseKeyVersionCompositeId (pre ++ "keys/" ++ x ++ "/keyVersions/" ++ post)
  = (fst (PathUnescape x), fst (PathUnescape post), None).
Proof.
  intros Hpre Hx Hpost Hnl. unfold parseKeyVersionCompositeId. cbv zeta.
  assert (HM : MatchString compositeIdPattern
                 (pre ++ "keys/" ++ x ++ "/keyVersions/" ++ post) = (true, None)).
  { apply MatchString_composite. now exists pre, x, post. }
  rewrite HM, Split_composite by assumption. reflexivity.
Qed.

(** On every other string the result is the error, with both names empty. *)
Lemma parse_rejects (s : string) :
  snd (parseKeyVersionCompositeId s) <> None ->
  parseKeyVersionCompositeId s = ("", "", Some (illegal_compositeId s)).
Proof.
  unfold parseKeyVersionCompositeId. cbv zeta.
  destruct (negb _ || negb _); [reflexivity | now intros []].
Qed.

End codecFacts.

(** C1. Decoding an encoded pair gives the pair back, for all byte strings
    [a] and [b]: [parseKeyVersionCompositeId (getKeyVersionCompositeId a b)]
    succeeds with [(a, b)].  A slash of [a] or [b] is in the composite string
    only in its escaped form: the string has the four pieces [keys], the
    escaped [a], [keyVersions], the escaped [b], and its only slashes are
    the three separators. *)
Theorem composite_id_round_trip (a b : string) :
  parseKeyVersionCompositeId (getKeyVersionCompositeId a b) = (a, b, None)
  /\ GoString.Split (getKeyVersionCompositeId a b) "/"
     = ["keys"; url.PathEscape a; "keyVersions"; url.PathEscape b]
  /\ GoString.count_byte "/" (getKeyVersionCompositeId a b) = 3.
Proof.
  unfold getKeyVersionCompositeId. cbv zeta.
  pose proof (urlFacts.PathEscape_no_slash a) as Ha.
  pose proof (urlFacts.PathEscape_no_slash b) as Hb.
  pose proof (codecFacts.parse_composite "" _ _ eq_refl Ha Hb
                (urlFacts.PathEscape_no_newline a)) as Hparse.
  pose proof (codecFacts.Split_composite "" _ _ eq_refl Ha Hb) as Hsplit.
  pose proof (codecFacts.count_composite "" (url.PathEscape a) (url.PathEscape b)) as Hcount.
  rewrite !urlFacts.PathUnescape_PathEscape in Hparse.
  rewrite Ha, Hb in Hcount.
  split; [exact Hparse | split; [exact Hsplit | exact Hcount]].
Qed.

(** C2. The decode grammar is looser and stricter than four pieces with
    the labels [keys] and [keyVersions]: the pattern is not anchored, so
    ["xkeys/a/keyVersions/b"], whose first piece is not [keys], decodes to
    [("a", "b")]; and [.] matches no newline, so a string of four pieces
    with both labels and a newline in its second piece is refused.  The
    three strings the spec lists are refused with the error, and no name is
    returned with it. *)
Theorem composite_id_grammar_unanchored :
  GoString.Split "xkeys/a/keyVersions/b" "/" = ["xkeys"; "a"; "keyVersions"; "b"]
  /\ parseKeyVersionCompositeId "xkeys/a/keyVersions/b" = ("a", "b", None)
  /\ (let id := "keys/a" ++ String "010" "b/keyVersions/c" in
      GoString.Split id "/" = ["keys"; "a" ++ String "010" "b"; "keyVersions"; "c"]
      /\ parseKeyVersionCompositeId id = ("", "", Some (illegal_compositeId id)))
  /\ parseKeyVersionCompositeId "keys/x/keyVersions"
     = ("", "", Some (illegal_compositeId "keys/x/keyVersions"))
  /\ parseKeyVersionCompositeId "foo/x/bar/y"
     = ("", "", Some (illegal_compositeId "foo/x/bar/y"))
  /\ parseKeyVersionCompositeId "" = ("", "", Some (illegal_compositeId "")).
Proof. repeat split; vm_compute; reflexivity. Qed.

(** A segment that ends in a percent sign cannot be unescaped. *)
Lemma unescape_check_trailing_percent (x : string) :
  url.unescape_check (x ++ "%") <> None.
Proof.
  assert (H : forall n x, String.length x <= n -> url.unescape_check (x ++ "%") <> None).
  { clear x. induction n as [|n IH]; intros x Hlen.
    - destruct x; [discriminate | cbn in Hlen; lia].
    - destruct x as [|c x1]; [discriminate|].
      cbn [String.append url.unescape_check].
      destruct (Ascii.eqb c "%").
      + destruct x1 as [|h x2]; [discriminate|].
        destruct x2 as [|l x3]; cbn [String.append].
        * replace (url.ishex h && url.ishex "%") with false
            by (now rewrite andb_false_r). discriminate.
        * destruct (url.ishex h && url.ishex l); [|discriminate].
          apply IH. cbn in Hlen. lia.
      + apply IH. cbn in Hlen. lia. }
  exact (H (String.length x) x (le_n _)).
Qed.

(** C10. Decoding swallows unescape failures.  On a string the pattern
    matches and that has four pieces, [parseKeyVersionCompositeId] returns
    no error, whatever [url.PathUnescape] says of the second and fourth
    piece; a piece that fails to unescape gives the empty name.  Such pieces
    exist: every key segment that ends in a percent sign fails to unescape,
    and the decode returns the empty key with no error; ["%zz"] fails, and
    ["keys/%zz/keyVersions/v"] decodes to the empty key and [v] with no
    error. *)
Theorem parse_swallows_unescape_errors :
  (forall compositeId : string,
     fst (MatchString compositeIdPattern compositeId) = true ->
     List.length (GoString.Split compositeId "/") = 4 ->
     let parts := GoString.Split compositeId "/" in
     let '(keyId, keyVersionId, err) := parseKeyVersionCompositeId compositeId in
     err = None
     /\ keyId = fst (url.PathUnescape (nth 1 parts ""))
     /\ keyVersionId = fst (url.PathUnescape (nth 3 parts ""))
     /\ (snd (url.PathUnescape (nth 1 parts "")) <> None -> keyId = "")
     /\ (snd (url.PathUnescape (nth 3 parts "")) <> None -> keyVersionId = ""))
  /\ (forall x y : string,
        GoString.count_byte "/" x = 0 -> GoString.all_bytes notNL x = true ->
        GoString.count_byte "/" y = 0 ->
        snd (url.PathUnescape (x ++ "%")) <> None
        /\ parseKeyVersionCompositeId ("keys/" ++ (x ++ "%") ++ "/keyVersions/" ++ y)
           = ("", fst (url.PathUnescape y), None))
  /\ url.PathUnescape "%zz" = ("", Some (url.EscapeError_of "%zz"))
  /\ parseKeyVersionCompositeId "keys/%zz/keyVersions/v" = ("", "v", None).
Proof.
  assert (Herr : forall piece, snd (url.PathUnescape piece) <> None ->
                               fst (url.PathUnescape piece) = "").
  { intros piece. unfold url.PathUnescape.
    destruct (url.unescape_check piece); [reflexivity | now intros []]. }
  split; [|split; [|split; vm_compute; reflexivity]].
  - intros compositeId Hm Hlen parts. unfold parseKeyVersionCompositeId. cbv zeta.
    rewrite Hm, Hlen. cbn [negb orb Nat.eqb]. repeat split; auto.
  - intros x y Hx Hnl Hy.
    assert (Hfails : snd (url.PathUnescape (x ++ "%")) <> None).
    { unfold url.PathUnescape.
      pose proof (unescape_check_trailing_percent x) as Hc.
      destruct (url.unescape_check (x ++ "%")); [discriminate | contradiction]. }
    split; [exact Hfails|].
    pose proof (codecFacts.parse_composite "" (x ++ "%") y eq_refl) as Hp.
    rewrite (Herr _ Hfails) in Hp. apply Hp.
    + rewrite GoStringFacts.count_byte_append, Hx. reflexivity.
    + exact Hy.
    + rewrite GoStringFacts.all_bytes_append, Hnl. reflexivity.
Qed.

Lemma parse_swallows_unescape_errors_witness :
  fst (MatchString compositeIdPattern "keys/%zz/keyVersions/v") = true
  /\ List.length (GoString.Split "keys/%zz/keyVersions/v" "/") = 4
  /\ (let parts := GoString.Split "keys/%zz/keyVersions/v" "/" in
      let '(keyId, keyVersionId, err) :=
        parseKeyVersionCompositeId "keys/%zz/keyVersions/v" in
      err = None
      /\ keyId = fst (url.PathUnescape (nth 1 parts ""))
      /\ keyVersionId = fst (url.PathUnescape (nth 3 parts ""))
      /\ (snd (url.PathUnescape (nth 1 parts "")) <> None -> keyId = "")
      /\ (snd (url.PathUnescape (nth 3 parts "")) <> None -> keyVersionId = ""))
  /\ snd (url.PathUnescape ("ocid1.key" ++ "%")) <> None
  /\ parseKeyVersionCompositeId ("keys/" ++ ("ocid1.key" ++ "%") ++ "/keyVersions/" ++ "v1")
     = ("", fst (url.PathUnescape "v1"), None).
Proof.
  split; [reflexivity | split; [reflexivity|]]. split.
  - exact (proj1 parse_swallows_unescape_errors "keys/%zz/keyVersions/v" eq_refl eq_refl).
  - exact (proj1 (proj2 parse_swallows_unescape_errors) "ocid1.key" "v1"
             eq_refl eq_refl eq_refl).
Defined.

(** ** The synchronizer *)

Section Synchronizer.
Context `{sdk : Sdk} `{service : !Service} `{driver : !Driver}.
Implicit Types (s : KmsKeyVersionResourceCrud) (w : World) (d : ResourceData).

(** C9. The pending and target tables: creation waits in [Creating] and
    [Enabling] for [Enabled]; deletion waits in [Disabled], [Deleting] and
    [SchedulingDeletion] for [Deleted] or [PendingDeletion]; the same for
    every synchronizer, and no state is both waited in and waited for. *)
Theorem pending_target_tables s :
  CreatedPending s = [KeyVersionLifecycleStateCreating; KeyVersionLifecycleStateEnabling]
  /\ CreatedTarget s = [KeyVersionLifecycleStateEnabled]
  /\ DeletedPending s = [KeyVersionLifecycleStateDisabled; KeyVersionLifecycleStateDeleting;
                         KeyVersionLifecycleStateSchedulingDeletion]
  /\ DeletedTarget s = [KeyVersionLifecycleStateDeleted;
                        KeyVersionLifecycleStatePendingDeletion]
  /\ (forall state,
        (state ∈ CreatedPending s <->
           state = KeyVersionLifecycleStateCreating \/ state = KeyVersionLifecycleStateEnabling)
        /\ (state ∈ CreatedTarget s <-> state = KeyVersionLifecycleStateEnabled)
        /\ (state ∈ DeletedPending s <->
              state = KeyVersionLifecycleStateDisabled \/ state = KeyVersionLifecycleStateDeleting
              \/ state = KeyVersionLifecycleStateSchedulingDeletion)
        /\ (state ∈ DeletedTarget s <->
              state = KeyVersionLifecycleStateDeleted
              \/ state = KeyVersionLifecycleStatePendingDeletion)
        /\ ~ (state ∈ CreatedPending s /\ state ∈ CreatedTarget s)
        /\ ~ (state ∈ DeletedPending s /\ state ∈ DeletedTarget s)).
Proof.
  repeat (split; [reflexivity|]). intros state.
  unfold CreatedPending, CreatedTarget, DeletedPending, DeletedTarget.
  rewrite !elem_of_cons, !elem_of_nil.
  repeat split; try tauto; destruct state; intuition discriminate.
Qed.

(** C8. Once the snapshot is there, with its key and its own identifier,
    [ID] is the composite identifier of these two, whatever the local store
    holds: neither its fields nor its identifier slot are read. *)
Theorem ID_from_snapshot s res keyId id :
  Res s = Some res ->
  KeyVersion_KeyId res = Some keyId ->
  KeyVersion_Id res = Some id ->
  ID s = Some (getKeyVersionCompositeId keyId id)
  /\ forall d, ID (with_D s d) = Some (getKeyVersionCompositeId keyId id).
Proof.
  intros Hres Hk Hi. unfold ID, with_D. cbn [Res]. now rewrite Hres, Hk, Hi.
Qed.

(** C3. The deletion guard.  When the setting [disable_kms_version_delete]
    reads as true, [deleteKmsKeyVersion] returns [nil] at once: the store and
    the world are as before, so the remote service has received nothing.
    When the setting is unset, or set to what [strconv.ParseBool] refuses,
    the guard is off and the deletion goes its way: the endpoint is looked
    up, the client is made and [DeleteResource] runs. *)
Theorem deletion_guard d (m : OracleClients) w :
  (fst (strconv.ParseBool (getEnvSettingWithDefault w "disable_kms_version_delete" "false"))
     = true ->
   deleteKmsKeyVersion d m w = Returns None d w)
  /\ (match environ w !! "disable_kms_version_delete" with
      | None => True
      | Some v => snd (strconv.ParseBool v) <> None
      end ->
      deleteKmsKeyVersion d m w =
        match GetOkExists d "management_endpoint" with
        | None => Returns (Some management_endpoint_missing) d w
        | Some endpoint =>
            match OracleClients_KmsManagementClient m endpoint with
            | inr err => Returns (Some err) d w
            | inl client => DeleteResource (new_sync d client) w
            end
        end).
Proof.
  unfold deleteKmsKeyVersion. cbv zeta. split.
  - now intros ->.
  - unfold getEnvSettingWithDefault.
    destruct (environ w !! "disable_kms_version_delete") as [v|]; [|reflexivity].
    unfold strconv.ParseBool.
    destruct (existsb _ _); [now intros [] |].
    destruct (existsb _ _); [now intros [] | reflexivity].
Qed.

(** C4. The decode gate.  When the stored identifier does not decode, [Get]
    and [Delete] return the error of [parseKeyVersionCompositeId] and the
    remote service has received no call.  When it decodes, [Get] makes one
    call, asking the service for the decoded pair; when the service answers,
    [Get] returns [nil] and the snapshot [Res] is that answer, the rest of
    the synchronizer being as before; when the service refuses, its error is
    returned and the synchronizer is as before. *)
Theorem decode_gate s w :
  (forall err, snd (parseKeyVersionCompositeId (Id (D s))) = Some err ->
     err = illegal_compositeId (Id (D s))
     /\ (exists w', Get s w = Returns (Some err) s w'
                    /\ remote_calls w' = remote_calls w)
     /\ (exists w', Delete s w = Returns (Some err) s w'
                    /\ remote_calls w' = remote_calls w))
  /\ (forall keyId keyVersionId client,
        parseKeyVersionCompositeId (Id (D s)) = (keyId, keyVersionId, None) ->
        Client s = Some client ->
        let request :=
          {| Get_KeyId := Some keyId; Get_KeyVersionId := Some keyVersionId;
             Get_RetryPolicy := Some (getRetryPolicy (DisableNotFoundRetries s) "kms") |} in
        let w' := record_call (GetKeyVersion_call client request) w in
        remote_calls w' = (remote_calls w ++ [GetKeyVersion_call client request])%list
        /\ match GetKeyVersion_response client request (remote_calls w) with
           | inl response =>
               exists s',
                 Get s w = Returns None s' w'
                 /\ Res s' = Some response
                 /\ D s' = D s /\ Client s' = Client s
                 /\ DisableNotFoundRetries s' = DisableNotFoundRetries s
           | inr err => Get s w = Returns (Some err) s w'
           end).
Proof.
  split.
  - intros err Herr.
    assert (Hp : parseKeyVersionCompositeId (Id (D s))
                 = ("", "", Some (illegal_compositeId (Id (D s))))).
    { apply codecFacts.parse_rejects. now rewrite Herr. }
    rewrite Hp in Herr. cbn in Herr. injection Herr as <-.
    split; [reflexivity|]. unfold Get, Delete. rewrite Hp.
    split; eexists; (split; [reflexivity|]); reflexivity.
  - intros keyId keyVersionId client Hp Hc request w'.
    split; [reflexivity|]. unfold Get. rewrite Hp, Hc.
    unfold Client_GetKeyVersion. fold request. fold w'.
    destruct (GetKeyVersion_response client request (remote_calls w)) as [response|err];
      [|reflexivity].
    exists (with_Res s response). repeat split; try reflexivity. exact Hc.
Qed.

(** C7. The deletion timestamp.  With a decodable identifier and the field
    [time_of_deletion] set, [Delete] parses the field with the layout
    [time.RFC3339Nano].  If the parse fails, its error is returned and the
    world is as before: no deletion was scheduled.  If it succeeds, the one
    call made is the schedule-deletion request carrying the parsed time. *)
Theorem delete_timestamp s w keyId keyVersionId timeOfDeletion :
  parseKeyVersionCompositeId (Id (D s)) = (keyId, keyVersionId, None) ->
  GetOkExists (D s) "time_of_deletion" = Some timeOfDeletion ->
  RFC3339Nano = "2006-01-02T15:04:05.999999999Z07:00"
  /\ match time_Parse RFC3339Nano timeOfDeletion with
     | inr err => Delete s w = Returns (Some err) s w
     | inl tmpTime =>
         forall client, Client s = Some client ->
           let request :=
             {| Schedule_KeyId := Some keyId;
                Schedule_KeyVersionId := Some keyVersionId;
                Schedule_TimeOfDeletion := Some {| SDKTime_Time := tmpTime |};
                Schedule_RetryPolicy :=
                  Some (getRetryPolicy (DisableNotFoundRetries s) "kms") |} in
           Delete s w =
             Returns (ScheduleKeyVersionDeletion_response client request (remote_calls w)) s
               (record_call (ScheduleKeyVersionDeletion_call client request) w)
           /\ remote_calls (record_call (ScheduleKeyVersionDeletion_call client request) w)
              = (remote_calls w ++ [ScheduleKeyVersionDeletion_call client request])%list
     end.
Proof.
  intros Hp Ht. split; [reflexivity|]. unfold Delete. rewrite Hp, Ht.
  destruct (time_Parse RFC3339Nano timeOfDeletion) as [tmpTime|err]; [|reflexivity].
  intros client ->. split; reflexivity.
Qed.

Lemma lookup_Set d key value k :
  fields (Set_ d key value) !! k = if decide (key = k) then Some value else fields d !! k.
Proof. unfold Set_. cbn [fields]. apply lookup_insert. Qed.

Lemma lookup_Set_if_present {A : Type} d key (render : A -> string) (field : option A) k :
  fields (Set_if_present d key render field) !! k
  = if decide (key = k) then
      match field with
      | Some v => Some (render v)
      | None => fields d !! k
      end
    else fields d !! k.
Proof.
  destruct field as [v|]; cbn [Set_if_present].
  - apply lookup_Set.
  - now destruct (decide (key = k)).
Qed.

Lemma Id_Set_if_present {A : Type} d key (render : A -> string) (field : option A) :
  Id (Set_if_present d key render field) = Id d.
Proof. now destruct field. Qed.

(** C6, amended. [SetData] projects what it can.  It returns [nil] whether
    or not the stored identifier decodes.  Its first step writes [key_id]
    and [key_version_id] from the identifier when it decodes, and when it
    does not, writes neither and logs one line.  Its second step goes
    through the snapshot: a field that is there overwrites the local field
    ([key_id] too, also after a failed decode), [state] is always written,
    and for a field that is nil the local field stays as the first step left
    it; so do [key_version_id], every other field and the identifier slot.
    No remote call is made. *)
Theorem SetData_partial_projection s w res :
  Res s = Some res ->
  let d0 := D s in
  let d1 :=
    match parseKeyVersionCompositeId (Id d0) with
    | (keyId, keyVersionId, None) =>
        Set_ (Set_ d0 "key_id" keyId) "key_version_id" keyVersionId
    | (_, _, Some _) => d0
    end in
  let after (A : Type) (render : A -> string) (field : option A) (key : string) :=
    match field with
    | Some v => Some (render v)
    | None => fields d1 !! key
    end in
  let time := fun t => SDKTime_String (SDKTime_Time t) in
  exists d' w',
    SetData s w = Returns None (with_D s d') w'
    /\ remote_calls w' = remote_calls w
    /\ (snd (parseKeyVersionCompositeId (Id d0)) = None -> w' = w)
    /\ (snd (parseKeyVersionCompositeId (Id d0)) <> None ->
        d1 = d0
        /\ w' = log_Printf ("[WARN] SetData() unable to parse current ID: " ++ Id d0) w)
    /\ Id d' = Id d0
    /\ fields d' !! "compartment_id" = after _ id (KeyVersion_CompartmentId res) "compartment_id"
    /\ fields d' !! "key_id" = after _ id (KeyVersion_KeyId res) "key_id"
    /\ fields d' !! "state" = Some (state_string (KeyVersion_LifecycleState res))
    /\ fields d' !! "time_created" = after _ time (KeyVersion_TimeCreated res) "time_created"
    /\ fields d' !! "time_of_deletion"
       = after _ time (KeyVersion_TimeOfDeletion res) "time_of_deletion"
    /\ fields d' !! "vault_id" = after _ id (KeyVersion_VaultId res) "vault_id"
    /\ fields d' !! "key_version_id" = fields d1 !! "key_version_id"
    /\ (forall key,
          key ∉ ["compartment_id"; "key_id"; "state"; "time_created"; "time_of_deletion";
                 "vault_id"] ->
          fields d' !! key = fields d1 !! key).
Proof.
  intros Hres d0 d1 after time.
  unfold SetData, SetData_identifier. fold d0. rewrite Hres.
  assert (Hd1 : forall key,
    fields (SetData_snapshot res d1) !! key =
    if decide ("vault_id" = key) then after _ id (KeyVersion_VaultId res) key
    else if decide ("time_of_deletion" = key) then after _ time (KeyVersion_TimeOfDeletion res) key
    else if decide ("time_created" = key) then after _ time (KeyVersion_TimeCreated res) key
    else if decide ("state" = key) then Some (state_string (KeyVersion_LifecycleState res))
    else if decide ("key_id" = key) then after _ id (KeyVersion_KeyId res) key
    else if decide ("compartment_id" = key) then after _ id (KeyVersion_CompartmentId res) key
    else fields d1 !! key).
  { intros key. unfold SetData_snapshot. cbv zeta.
    rewrite !lookup_Set_if_present, lookup_Set, !lookup_Set_if_present.
    unfold after. repeat case_decide; subst; try reflexivity; try congruence. }
  assert (HId : Id (SetData_snapshot res d1) = Id d0).
  { unfold SetData_snapshot. cbv zeta. rewrite !Id_Set_if_present. cbn [Set_ Id].
    rewrite !Id_Set_if_present. subst d1.
    now destruct (parseKeyVersionCompositeId (Id d0)) as [[k v] [e|]]. }
  subst d1.
  destruct (parseKeyVersionCompositeId (Id d0)) as [[keyId keyVersionId] [e|]] eqn:Hp.
  - eexists _, _. split; [reflexivity|]. cbn [snd].
    split; [reflexivity|]. split; [discriminate|]. split; [auto|].
    split; [exact HId|].
    rewrite !Hd1. repeat (split; [reflexivity|]).
    intros key Hkey. rewrite Hd1.
    repeat (case_decide; [subst key; exfalso; apply Hkey; set_solver|]). reflexivity.
  - eexists _, _. split; [reflexivity|]. cbn [snd].
    split; [reflexivity|]. split; [reflexivity|]. split; [now intros []|].
    split; [exact HId|].
    rewrite !Hd1. repeat (split; [reflexivity|]).
    intros key Hkey. rewrite Hd1.
    repeat (case_decide; [subst key; exfalso; apply Hkey; set_solver|]). reflexivity.
Qed.

End Synchronizer.

(** ** Importing *)

Module importFacts.
Import GoString GoStringFacts regexp regexpFacts.

Section CaptureStar.
Context {R : Type}.
Implicit Types (k : nat -> string -> list string -> option R).

Lemma capture_star_sound k pos s caps r :
  run (Capture AnyNotNLStar) pos s caps k = Some r ->
  exists x rest, s = x ++ rest /\ all_bytes notNL x = true
                 /\ k (pos + String.length x) rest (caps ++ [x])%list = Some r.
Proof.
  cbn [run]. intros H.
  apply star_any_sound in H as (x & rest & -> & Hx & H).
  exists x, rest. repeat split; [exact Hx|].
  replace (pos + String.length x - pos) with (String.length x) in H by lia.
  now rewrite take_append in H.
Qed.

Lemma capture_star_complete k pos x rest caps :
  all_bytes notNL x = true ->
  is_Some (k (pos + String.length x) rest (caps ++ [x])%list) ->
  is_Some (run (Capture AnyNotNLStar) pos (x ++ rest) caps k).
Proof.
  intros Hx Hk. cbn [run]. apply star_any_complete; [exact Hx|].
  replace (pos + String.length x - pos) with (String.length x) by lia.
  now rewrite take_append.
Qed.
End CaptureStar.

Lemma substring_all (s : string) : String.substring 0 (String.length s) s = s.
Proof. induction s as [|c s IH]; cbn; [reflexivity | now rewrite IH]. Qed.

(** A match of the import pattern starts at the beginning of the text,
    ends at its end, and cuts it into the three groups. *)
Section Unfold.
Context {R : Type}.
Implicit Types (k : nat -> string -> list string -> option R).

Lemma run_Concat r1 r2 pos s caps k :
  run (Concat r1 r2) pos s caps k
  = run r1 pos s caps (fun pos' s' caps' => run r2 pos' s' caps' k).
Proof. reflexivity. Qed.

Lemma run_Literal l pos s caps k :
  run (Literal l) pos s caps k
  = match strip_prefix l s with
    | Some s' => k (pos + String.length l) s' caps
    | None => None
    end.
Proof. reflexivity. Qed.

Lemma run_BeginText pos s caps k :
  run BeginText pos s caps k = if Nat.eqb pos 0 then k pos s caps else None.
Proof. reflexivity. Qed.

Lemma run_EndText pos s caps k :
  run EndText pos s caps k
  = match s with
    | EmptyString => k pos s caps
    | String _ _ => None
    end.
Proof. reflexivity. Qed.
End Unfold.

Ltac literal_in H s' :=
  rewrite run_Concat, run_Literal in H;
  let E := fresh "E" in
  destruct (strip_prefix _ _) as [s'|] eqn:E in H; [|discriminate];
  apply strip_prefix_Some in E as ->.

Ltac group_in H x rest Hx :=
  rewrite run_Concat in H;
  apply capture_star_sound in H as (x & rest & -> & Hx & H).

Lemma match_at_import_sound (s : string) (e : nat) (caps : list string) :
  match_at importIdRegexp 0 s = Some (e, caps) ->
  exists ep k v,
    s = import_format ep k v /\ caps = [ep; k; v] /\ e = String.length s
    /\ all_bytes notNL ep = true /\ all_bytes notNL k = true /\ all_bytes notNL v = true.
Proof.
  unfold match_at, importIdRegexp. intros H.
  rewrite run_Concat, run_BeginText in H. cbn [Nat.eqb] in H.
  literal_in H s1. group_in H ep r1 Hep.
  literal_in H s2. group_in H k r2 Hk.
  literal_in H s3. group_in H v r3 Hv.
  rewrite run_EndText in H.
  destruct r3; [|discriminate]. injection H as <- <-.
  exists ep, k, v. unfold import_format. rewrite append_nil_r.
  repeat split; try assumption.
  rewrite !length_append. cbn [String.length]. lia.
Qed.

Lemma match_at_import_complete (ep k v : string) :
  all_bytes notNL ep = true -> all_bytes notNL k = true -> all_bytes notNL v = true ->
  is_Some (match_at importIdRegexp 0 (import_format ep k v)).
Proof.
  intros Hep Hk Hv. unfold match_at, importIdRegexp, import_format.
  rewrite run_Concat, run_BeginText. cbn [Nat.eqb].
  rewrite run_Concat, run_Literal, strip_prefix_append.
  rewrite run_Concat. apply capture_star_complete; [exact Hep|].
  rewrite run_Concat, run_Literal, strip_prefix_append.
  rewrite run_Concat. apply capture_star_complete; [exact Hk|].
  rewrite run_Concat, run_Literal, strip_prefix_append.
  rewrite run_Concat. rewrite <- (append_nil_r v) at 1.
  apply capture_star_complete; [exact Hv|].
  rewrite run_EndText. eauto.
Qed.

(** Anchored at the beginning, the pattern matches from no later offset. *)
Lemma search_import_later (pos : nat) (s : string) : search importIdRegexp (S pos) s = None.
Proof.
  revert pos. induction s as [|c s IH]; intros pos.
  - reflexivity.
  - cbn [search]. change (match_at importIdRegexp (S pos) (String c s)) with (@None (nat * list string)).
    apply IH.
Qed.

(** [FindStringSubmatch] on the import pattern: the whole string and its
    three groups, or nothing. *)
Lemma FindStringSubmatch_import (s : string) :
  (exists ep k v,
     FindStringSubmatch importIdRegexp s = [s; ep; k; v] /\ s = import_format ep k v
     /\ all_bytes notNL ep = true /\ all_bytes notNL k = true /\ all_bytes notNL v = true)
  \/ (FindStringSubmatch importIdRegexp s = []
      /\ forall ep k v,
           all_bytes notNL ep = true -> all_bytes notNL k = true -> all_bytes notNL v = true ->
           s <> import_format ep k v).
Proof.
  unfold FindStringSubmatch.
  assert (Hs : search importIdRegexp 0 s =
               match match_at importIdRegexp 0 s with
               | Some (e, caps) => Some (0, e, caps)
               | None => None
               end).
  { destruct s as [|c s]; cbn [search];
      destruct (match_at importIdRegexp 0 _) as [[e caps]|]; try reflexivity.
    apply search_import_later. }
  rewrite Hs. destruct (match_at importIdRegexp 0 s) as [[e caps]|] eqn:E.
  - left. apply match_at_import_sound in E as (ep & k & v & Hs' & -> & -> & Hep & Hk & Hv).
    exists ep, k, v. rewrite Nat.sub_0_r, substring_all. auto.
  - right. split; [reflexivity|]. intros ep k v Hep Hk Hv ->.
    destruct (match_at_import_complete ep k v Hep Hk Hv) as [m Hm]. congruence.
Qed.

Lemma count_import_format (ep k v : string) :
  count_byte "/" (import_format ep k v)
  = count_byte "/" ep + count_byte "/" k + count_byte "/" v + 5.
Proof.
  unfold import_format. rewrite !count_byte_append. cbn [count_byte Ascii.eqb Bool.eqb]. lia.
Qed.

Lemma Split_import_format (ep k v : string) :
  count_byte "/" ep = 0 -> count_byte "/" k = 0 -> count_byte "/" v = 0 ->
  Split (import_format ep k v) "/" = ["managementEndpoint"; ep; "keys"; k; "keyVersions"; v].
Proof.
  intros Hep Hk Hv. unfold import_format.
  change (Split ("managementEndpoint" ++ String "/" (ep ++ String "/"
           ("keys" ++ String "/" (k ++ String "/" ("keyVersions" ++ String "/" v))))) "/"
          = ["managementEndpoint"; ep; "keys"; k; "keyVersions"; v]).
  rewrite Split_piece by reflexivity. rewrite Split_piece by exact Hep.
  rewrite Split_piece by reflexivity. rewrite Split_piece by exact Hk.
  rewrite Split_piece by reflexivity. now rewrite Split_last by exact Hv.
Qed.

(** Segments without slash are read off the string in one way only. *)
Lemma import_format_unique (ep k v ep' k' v' : string) :
  count_byte "/" ep = 0 -> count_byte "/" k = 0 -> count_byte "/" v = 0 ->
  import_format ep k v = import_format ep' k' v' ->
  ep' = ep /\ k' = k /\ v' = v.
Proof.
  intros Hep Hk Hv Heq.
  pose proof (f_equal (count_byte "/") Heq) as Hc. rewrite !count_import_format in Hc.
  pose proof (f_equal (fun t => Split t "/") Heq) as Hsp. cbv beta in Hsp.
  rewrite !Split_import_format in Hsp by lia.
  now injection Hsp as -> -> ->.
Qed.

End importFacts.

Section Importing.
Context `{sdk : Sdk} `{service : !Service} `{driver : !Driver}.
Implicit Types (w : World) (d : ResourceData).

(** C5, amended. Import parsing.  [readKmsKeyVersion] imports when the
    store has no [management_endpoint].  An identifier of the import format
    whose three segments hold no newline is cut by the pattern into an
    endpoint, a key and a key version that make it up; they are the given
    segments when these hold no slash.  The three are written to
    [management_endpoint], [key_id] and [key_version_id], the identifier
    slot takes the composite identifier of the key and the key version, and
    the read goes on with this store.  Every other identifier, one of the
    format with a newline in a segment included, returns the format error,
    and the store and the world are as before. *)
Theorem import_parsing d (m : OracleClients) w :
  GetOkExists d "management_endpoint" = None ->
  (forall ep k v,
     Id d = import_format ep k v ->
     GoString.all_bytes notNL ep = true ->
     GoString.all_bytes notNL k = true ->
     GoString.all_bytes notNL v = true ->
     exists endpoint keyId keyVersionId,
       FindStringSubmatch importIdRegexp (Id d) = [Id d; endpoint; keyId; keyVersionId]
       /\ Id d = import_format endpoint keyId keyVersionId
       /\ (GoString.count_byte "/" ep = 0 -> GoString.count_byte "/" k = 0 ->
           GoString.count_byte "/" v = 0 ->
           endpoint = ep /\ keyId = k /\ keyVersionId = v)
       /\ let d' :=
            {| Id := getKeyVersionCompositeId keyId keyVersionId;
               fields := <["key_version_id" := keyVersionId]>
                           (<["key_id" := keyId]>
                              (<["management_endpoint" := endpoint]> (fields d))) |} in
          readKmsKeyVersion d m w =
            match OracleClients_KmsManagementClient m endpoint with
            | inr err => Returns (Some err) d' w
            | inl client => ReadResource (new_sync d' client) w
            end)
  /\ ((forall ep k v,
         GoString.all_bytes notNL ep = true ->
         GoString.all_bytes notNL k = true ->
         GoString.all_bytes notNL v = true ->
         Id d <> import_format ep k v) ->
      FindStringSubmatch importIdRegexp (Id d) = []
      /\ readKmsKeyVersion d m w = Returns (Some (id_should_be_of_format (Id d))) d w).
Proof.
  intros Hendpoint. unfold readKmsKeyVersion. rewrite Hendpoint. cbv zeta.
  change (Compile importIdPattern) with (Some importIdRegexp). cbv iota beta.
  destruct (importFacts.FindStringSubmatch_import (Id d))
    as [(endpoint & keyId & keyVersionId & Htokens & Hid & _) | [Htokens Hnot]].
  - split.
    + intros ep k v Hshape _ _ _. exists endpoint, keyId, keyVersionId.
      split; [exact Htokens|]. split; [exact Hid|]. split.
      * intros Hep Hk Hv. apply (importFacts.import_format_unique ep k v); try assumption.
        now rewrite <- Hshape, <- Hid.
      * rewrite Htokens. reflexivity.
    + intros Hnone. exfalso.
      destruct (importFacts.FindStringSubmatch_import (Id d))
        as [(ep & k & v & _ & Hs & Hep & Hk & Hv) | [Hnil _]].
      * exact (Hnone ep k v Hep Hk Hv Hs).
      * rewrite Hnil in Htokens. discriminate.
  - split.
    + intros ep k v Hshape Hep Hk Hv. exfalso. exact (Hnot ep k v Hep Hk Hv Hshape).
    + intros _. rewrite Htokens. split; reflexivity.
Qed.

End Importing.

(** ** The properties on the stub *)

Module StubRuns.
Import Stub.

Example escape_reserved : getKeyVersionCompositeId "a/b" "c d" = "keys/a%2Fb/keyVersions/c%20d".
Proof. reflexivity. Qed.

Example import_tokens :
  FindStringSubmatch importIdRegexp "managementEndpoint/ep1/keys/k1/keyVersions/v1"
  = ["managementEndpoint/ep1/keys/k1/keyVersions/v1"; "ep1"; "k1"; "v1"].
Proof. reflexivity. Qed.

(** With several ways to cut the string, the earlier groups take the most. *)
Example import_tokens_greedy :
  FindStringSubmatch importIdRegexp "managementEndpoint/e/keys/k/keys/k2/keyVersions/v"
  = ["managementEndpoint/e/keys/k/keys/k2/keyVersions/v"; "e/keys/k"; "k2"; "v"].
Proof. reflexivity. Qed.

End StubRuns.

Import Stub StubRuns.

Lemma deletion_guard_witness :
  let d := stored "keys/k1/keyVersions/v1" [("management_endpoint", "ep1")] in
  fst (strconv.ParseBool
         (getEnvSettingWithDefault world_guarded "disable_kms_version_delete" "false")) = true
  /\ deleteKmsKeyVersion d clients world_guarded = Returns None d world_guarded
  /\ snd (strconv.ParseBool "yes") <> None
  /\ deleteKmsKeyVersion d clients world_unparsable
     = DeleteResource (new_sync d "ep1") world_unparsable
  /\ deleteKmsKeyVersion d clients world0 = DeleteResource (new_sync d "ep1") world0.
Proof.
  intros d. split; [reflexivity|].
  split; [exact (proj1 (deletion_guard d clients world_guarded) eq_refl)|].
  split; [discriminate|].
  split.
  - refine (proj2 (deletion_guard d clients world_unparsable) _). vm_compute. discriminate.
  - exact (proj2 (deletion_guard d clients world0) I).
Defined.

Lemma decode_gate_witness :
  let s := synced (stored "garbage" []) None in
  let s2 := synced (stored "keys/k1/keyVersions/v1" []) None in
  snd (parseKeyVersionCompositeId (Id (D s))) = Some (illegal_compositeId "garbage")
  /\ (exists w', Get s world0 = Returns (Some (illegal_compositeId "garbage")) s w'
                 /\ remote_calls w' = [])
  /\ (exists w', Delete s world0 = Returns (Some (illegal_compositeId "garbage")) s w'
                 /\ remote_calls w' = [])
  /\ parseKeyVersionCompositeId (Id (D s2)) = ("k1", "v1", None)
  /\ Client s2 = Some "ep1"
  /\ exists s' w',
       Get s2 world0 = Returns None s' w'
       /\ Res s' = Some the_key_version
       /\ D s' = D s2
       /\ remote_calls w' =
          [GetKeyVersion_call "ep1"
             {| Get_KeyId := Some "k1"; Get_KeyVersionId := Some "v1";
                Get_RetryPolicy := Some (false, "kms") |}].
Proof.
  intros s s2. split; [reflexivity|].
  destruct (proj1 (decode_gate s world0) (illegal_compositeId "garbage") eq_refl)
    as (_ & HGet & HDelete).
  split; [exact HGet|]. split; [exact HDelete|].
  split; [reflexivity|]. split; [reflexivity|].
  destruct (proj2 (decode_gate s2 world0) "k1" "v1" "ep1" eq_refl eq_refl)
    as (Hcalls & s' & Hrun & Hres & Hstore & _).
  exists s'. eexists. split; [exact Hrun|]. split; [exact Hres|].
  split; [exact Hstore | exact Hcalls].
Defined.

Lemma delete_timestamp_witness :
  let s := synced (stored "keys/k1/keyVersions/v1" [("time_of_deletion", "tomorrow")]) None in
  parseKeyVersionCompositeId (Id (D s)) = ("k1", "v1", None)
  /\ GetOkExists (D s) "time_of_deletion" = Some "tomorrow"
  /\ Delete s world0 = Returns (Some (collaborator_error "parsing time tomorrow")) s world0.
Proof.
  intros s. split; [reflexivity|]. split; [reflexivity|].
  exact (proj2 (delete_timestamp s world0 "k1" "v1" "tomorrow" eq_refl eq_refl)).
Defined.

Lemma ID_from_snapshot_witness :
  let s := synced (stored "" [("key_id", "another")]) (Some the_key_version) in
  Res s = Some the_key_version
  /\ KeyVersion_KeyId the_key_version = Some "k1"
  /\ KeyVersion_Id the_key_version = Some "v1"
  /\ ID s = Some "keys/k1/keyVersions/v1".
Proof.
  intros s. repeat (split; [reflexivity|]).
  exact (proj1 (ID_from_snapshot s the_key_version "k1" "v1" eq_refl eq_refl eq_refl)).
Defined.

Lemma import_parsing_witness :
  let d := stored "managementEndpoint/ep1/keys/k1/keyVersions/v1" [] in
  let d' := stored (getKeyVersionCompositeId "k1" "v1")
              [("key_version_id", "v1"); ("key_id", "k1"); ("management_endpoint", "ep1")] in
  GetOkExists d "management_endpoint" = None
  /\ readKmsKeyVersion d clients world0 = ReadResource (new_sync d' "ep1") world0
  /\ readKmsKeyVersion (stored "garbage" []) clients world0
     = Returns (Some (id_should_be_of_format "garbage")) (stored "garbage" []) world0.
Proof.
  intros d d'. split; [reflexivity|]. split.
  - destruct (import_parsing d clients world0 eq_refl) as [Hshape _].
    destruct (Hshape "ep1" "k1" "v1" eq_refl eq_refl eq_refl eq_refl)
      as (endpoint & keyId & keyVersionId & _ & _ & Hsame & Hread).
    destruct (Hsame eq_refl eq_refl eq_refl) as (-> & -> & ->).
    exact Hread.
  - refine (proj2 (proj2 (import_parsing (stored "garbage" []) clients world0 eq_refl) _)).
    intros ep k v _ _ _ H. discriminate H.
Defined.

Lemma SetData_partial_projection_witness :
  let d := stored "garbage" [("key_id", "old key"); ("key_version_id", "old version");
                            ("vault_id", "old vault")] in
  let s := synced d (Some the_key_version) in
  Res s = Some the_key_version
  /\ exists d' w',
       SetData s world0 = Returns None (with_D s d') w'
       /\ remote_calls w' = []
       /\ fields d' !! "key_id" = Some "k1"
       /\ fields d' !! "key_version_id" = Some "old version"
       /\ fields d' !! "vault_id" = Some "old vault"
       /\ fields d' !! "state" = Some "ENABLED".
Proof.
  intros d s. split; [reflexivity|].
  destruct (SetData_partial_projection s world0 the_key_version eq_refl)
    as (d' & w' & Hrun & Hcalls & _ & _ & _ & _ & Hkey & Hstate & _ & _ & Hvault & Hversion & _).
  exists d', w'. repeat split; assumption.
Defined.

(** C5 as stated fails: an identifier of the stated shape with a newline in
    its endpoint is refused with the format error, and no field is set. *)
Lemma import_refuses_newline_in_segment :
  let id := import_format ("ep" ++ String "010" "1") "k1" "v1" in
  let d := stored id [] in
  GetOkExists d "management_endpoint" = None
  /\ readKmsKeyVersion d clients world0
     = Returns (Some (id_should_be_of_format id)) d world0
  /\ ~ (exists err d' w',
          readKmsKeyVersion d clients world0 = Returns err d' w'
          /\ GetOkExists d' "management_endpoint" = Some ("ep" ++ String "010" "1")
          /\ GetOkExists d' "key_id" = Some "k1"
          /\ GetOkExists d' "key_version_id" = Some "v1").
Proof.
  intros id d.
  assert (Hrun : readKmsKeyVersion d clients world0
                 = Returns (Some (id_should_be_of_format id)) d world0)
    by (vm_compute; reflexivity).
  split; [reflexivity|]. split; [exact Hrun|].
  intros (err & d' & w' & Hrun' & _ & Hkey & _).
  rewrite Hrun in Hrun'. injection Hrun' as _ <- _. discriminate Hkey.
Qed.

(** C6 as stated fails: after a failed decode, [key_id] is not left as it
    was when the snapshot has a key. *)
Lemma SetData_key_id_not_left_as_is :
  let d := stored "garbage" [("key_id", "old key"); ("key_version_id", "old version")] in
  let s := synced d (Some the_key_version) in
  ~ (snd (parseKeyVersionCompositeId (Id (D s))) <> None ->
     forall d' w', SetData s world0 = Returns None (with_D s d') w' ->
       fields d' !! "key_id" = fields (D s) !! "key_id"
       /\ fields d' !! "key_version_id" = fields (D s) !! "key_version_id").
Proof.
  intros d s Hclaim.
  assert (Hfails : snd (parseKeyVersionCompositeId (Id (D s))) <> None) by discriminate.
  destruct (Hclaim Hfails (SetData_snapshot the_key_version d)
              (log_Printf ("[WARN] SetData() unable to parse current ID: " ++ Id d) world0)
              eq_refl) as [Hkey _].
  vm_compute in Hkey. discriminate Hkey.
Qed.

(** * Further properties of the code *)

(** ** The codec *)

Module codecMore.
Import GoString GoStringFacts url urlFacts regexp regexpFacts codecFacts.

Lemma parse_getKeyVersionCompositeId (a b : string) :
  parseKeyVersionCompositeId (getKeyVersionCompositeId a b) = (a, b, None).
Proof.
  pose proof (parse_composite "" _ _ eq_refl (PathEscape_no_slash a) (PathEscape_no_slash b)
                (PathEscape_no_newline a)) as H.
  now rewrite !PathUnescape_PathEscape in H.
Qed.

Lemma Split_pieces (s : string) (sep : ascii) :
  Forall (fun piece => count_byte sep piece = 0) (Split s sep).
Proof.
  induction s as [|c s IH]; cbn [Split].
  - now constructor.
  - destruct (Ascii.eqb c sep) eqn:E; [now constructor|].
    destruct (Split s sep) as [|piece rest]; [constructor; [|constructor]|].
    + cbn. now rewrite E.
    + inversion IH as [|? ? Hpiece Hrest]; subst. constructor; [|exact Hrest].
      cbn. now rewrite E.
Qed.

Lemma Join_more (piece next : string) (rest : list string) (sep : ascii) :
  Join (piece :: next :: rest) sep = piece ++ String sep (Join (next :: rest) sep).
Proof. reflexivity. Qed.

Lemma Join_Split (s : string) (sep : ascii) : Join (Split s sep) sep = s.
Proof.
  induction s as [|c s IH]; cbn [Split]; [reflexivity|].
  destruct (Ascii.eqb_spec c sep) as [->|Hc].
  - destruct (Split s sep) as [|piece rest] eqn:E; [now destruct (Split_not_nil s sep)|].
    rewrite Join_more, IH. reflexivity.
  - destruct (Split s sep) as [|piece rest] eqn:E; [now destruct (Split_not_nil s sep)|].
    destruct rest as [|next rest].
    + cbn [Join] in *. now rewrite IH.
    + rewrite Join_more in *. now rewrite <- IH.
Qed.

(** The four pieces, read back as a string of the composite shape. *)
Lemma composite_of_pieces (s pre x post : string) :
  Split s "/" = [pre ++ "keys"; x; "keyVersions"; post] ->
  s = pre ++ "keys/" ++ x ++ "/keyVersions/" ++ post
  /\ count_byte "/" pre = 0 /\ count_byte "/" x = 0 /\ count_byte "/" post = 0.
Proof.
  intros Hs. pose proof (Split_pieces s "/") as Hp. rewrite Hs in Hp.
  inversion Hp as [|? ? H0 Hp1]; subst. inversion Hp1 as [|? ? H1 Hp2]; subst.
  inversion Hp2 as [|? ? _ Hp3]; subst. inversion Hp3 as [|? ? H3 _]; subst.
  rewrite count_byte_append in H0.
  pose proof (Join_Split s "/") as HJ. rewrite Hs in HJ. cbn [Join] in HJ.
  split; [|lia]. rewrite <- HJ at 1. now rewrite append_assoc.
Qed.

Lemma visible_kept (c : ascii) : shouldEscape c = false -> visible_byte c = true.
Proof. each_byte c; vm_compute; congruence. Qed.

Lemma visible_upperhex (n : nat) : visible_byte (upperhex n) = true.
Proof. do 16 (destruct n as [|n]; [reflexivity|]). reflexivity. Qed.

Lemma PathEscape_visible (s : string) : all_bytes visible_byte (PathEscape s) = true.
Proof.
  induction s as [|c s IH]; [reflexivity|].
  cbn [PathEscape]. destruct (shouldEscape c) eqn:E; cbn [all_bytes].
  - now rewrite !visible_upperhex, IH.
  - now rewrite (visible_kept c E), IH.
Qed.

Lemma PathEscape_length (s : string) :
  String.length s <= String.length (PathEscape s) <= 3 * String.length s.
Proof.
  induction s as [|c s IH]; cbn [PathEscape String.length]; [lia|].
  destruct (shouldEscape c); cbn [String.length]; lia.
Qed.

Lemma PathEscape_kept (s : string) : all_bytes kept_byte s = true -> PathEscape s = s.
Proof.
  induction s as [|c s IH]; [reflexivity|].
  cbn [all_bytes PathEscape]. unfold kept_byte at 1.
  intros [Hc Hs]%andb_true_iff. apply negb_true_iff in Hc. now rewrite Hc, IH.
Qed.

Lemma PathUnescape_no_percent (s : string) :
  all_bytes (fun c => negb (Ascii.eqb c "%")) s = true -> PathUnescape s = (s, None).
Proof.
  intros H. unfold PathUnescape.
  assert (Hc : unescape_check s = None /\ unescape_build s = s).
  { induction s as [|c s IH]; [now split|].
    cbn [all_bytes] in H. apply andb_true_iff in H as [Hc Hs]. apply negb_true_iff in Hc.
    destruct (IH Hs) as [IH1 IH2].
    rewrite unescape_check_kept, unescape_build_kept by exact Hc. now rewrite IH1, IH2. }
  destruct Hc as [-> ->]. reflexivity.
Qed.

End codecMore.

(** X1. The composite identifier tells key versions apart: two pairs with
    the same composite identifier are the same pair. *)
Theorem getKeyVersionCompositeId_injective (keyId keyVersionId keyId' keyVersionId' : string) :
  getKeyVersionCompositeId keyId keyVersionId = getKeyVersionCompositeId keyId' keyVersionId' ->
  keyId = keyId' /\ keyVersionId = keyVersionId'.
Proof.
  intros H. apply (f_equal parseKeyVersionCompositeId) in H.
  rewrite !codecMore.parse_getKeyVersionCompositeId in H. now injection H.
Qed.

Lemma getKeyVersionCompositeId_injective_witness :
  getKeyVersionCompositeId "a/b" "c" = getKeyVersionCompositeId "a/b" "c"
  /\ getKeyVersionCompositeId "a/b" "c" <> getKeyVersionCompositeId "a" "b/c".
Proof.
  split; [reflexivity|]. intros H.
  destruct (getKeyVersionCompositeId_injective "a/b" "c" "a" "b/c" H) as [Ha _].
  discriminate Ha.
Defined.

(** X2. What [parseKeyVersionCompositeId] accepts, exactly: the strings
    that [strings.Split] cuts into four pieces of which the first ends in
    [keys], the second holds no newline and the third is [keyVersions].  It
    then returns the second and the fourth piece unescaped; on every other
    string it returns the error and two empty names. *)
Theorem parse_accepts_exactly (compositeId : string) :
  (snd (parseKeyVersionCompositeId compositeId) = None <->
   exists pre x post,
     GoString.Split compositeId "/" = [pre ++ "keys"; x; "keyVersions"; post]
     /\ GoString.all_bytes notNL x = true)
  /\ (forall pre x post,
        GoString.Split compositeId "/" = [pre ++ "keys"; x; "keyVersions"; post] ->
        GoString.all_bytes notNL x = true ->
        parseKeyVersionCompositeId compositeId
        = (fst (url.PathUnescape x), fst (url.PathUnescape post), None))
  /\ (snd (parseKeyVersionCompositeId compositeId) <> None ->
      parseKeyVersionCompositeId compositeId
      = ("", "", Some (illegal_compositeId compositeId))).
Proof.
  split; [|split].
  - rewrite codecFacts.parse_accepts. split.
    + intros (pre & x & post & -> & Hpre & Hx & Hpost & Hnl). exists pre, x, post.
      split; [now apply codecFacts.Split_composite | exact Hnl].
    + intros (pre & x & post & Hs & Hnl). exists pre, x, post.
      destruct (codecMore.composite_of_pieces _ _ _ _ Hs) as (-> & Hpre & Hx & Hpost).
      auto.
  - intros pre x post Hs Hnl.
    destruct (codecMore.composite_of_pieces _ _ _ _ Hs) as (-> & Hpre & Hx & Hpost).
    now apply codecFacts.parse_composite.
  - apply codecFacts.parse_rejects.
Qed.

Lemma parse_accepts_exactly_witness :
  GoString.Split "my-keys/a%2Fb/keyVersions/" "/" = ["my-" ++ "keys"; "a%2Fb"; "keyVersions"; ""]
  /\ parseKeyVersionCompositeId "my-keys/a%2Fb/keyVersions/" = ("a/b", "", None)
  /\ parseKeyVersionCompositeId "keys/a/b/keyVersions/c"
     = ("", "", Some (illegal_compositeId "keys/a/b/keyVersions/c")).
Proof.
  split; [reflexivity|]. split.
  - exact (proj1 (proj2 (parse_accepts_exactly "my-keys/a%2Fb/keyVersions/"))
             "my-" "a%2Fb" "" eq_refl eq_refl).
  - refine (proj2 (proj2 (parse_accepts_exactly "keys/a/b/keyVersions/c")) _).
    vm_compute. discriminate.
Defined.

(** X3. A composite identifier is made of visible ASCII bytes only,
    whatever bytes the two names hold, and its length is between the
    lengths of the names plus the 18 bytes of the labels and three times
    the lengths of the names plus 18. *)
Theorem composite_id_visible_and_bounded (keyId keyVersionId : string) :
  GoString.all_bytes visible_byte (getKeyVersionCompositeId keyId keyVersionId) = true
  /\ String.length keyId + String.length keyVersionId + 18
     <= String.length (getKeyVersionCompositeId keyId keyVersionId)
     <= 3 * (String.length keyId + String.length keyVersionId) + 18.
Proof.
  unfold getKeyVersionCompositeId. cbv zeta. split.
  - rewrite !GoStringFacts.all_bytes_append, !codecMore.PathEscape_visible. reflexivity.
  - rewrite !GoStringFacts.length_append. cbn [String.length].
    pose proof (codecMore.PathEscape_length keyId).
    pose proof (codecMore.PathEscape_length keyVersionId). lia.
Qed.

(** X4. Names that need no escaping are stored verbatim: when every byte
    of both names is a letter, a digit or one of [-_.~$&+:=@], the composite
    identifier is [keys/<key>/keyVersions/<key version>] with the names as
    they are.  And a string of that form whose two names hold no slash, no
    newline and no percent sign decodes to these names as they are. *)
Theorem plain_names_verbatim (keyId keyVersionId : string) :
  (GoString.all_bytes kept_byte keyId = true ->
   GoString.all_bytes kept_byte keyVersionId = true ->
   getKeyVersionCompositeId keyId keyVersionId
   = "keys/" ++ keyId ++ "/keyVersions/" ++ keyVersionId)
  /\ (GoString.all_bytes url.plain_byte keyId = true ->
      GoString.all_bytes url.plain_byte keyVersionId = true ->
      parseKeyVersionCompositeId ("keys/" ++ keyId ++ "/keyVersions/" ++ keyVersionId)
      = (keyId, keyVersionId, None)).
Proof.
  split.
  - intros Hk Hv. unfold getKeyVersionCompositeId. cbv zeta.
    now rewrite !codecMore.PathEscape_kept.
  - intros Hk Hv.
    assert (P : forall s, GoString.all_bytes url.plain_byte s = true ->
                GoString.count_byte "/" s = 0 /\ GoString.all_bytes notNL s = true
                /\ url.PathUnescape s = (s, None)).
    { intros s Hs. split; [|split].
      - apply GoStringFacts.count_byte_0. revert Hs. apply GoStringFacts.all_bytes_impl.
        intros c Hc. unfold url.plain_byte in Hc.
        now apply andb_true_iff in Hc as [[Hc _]%andb_true_iff _].
      - revert Hs. apply GoStringFacts.all_bytes_impl.
        intros c Hc. unfold url.plain_byte in Hc.
        now apply andb_true_iff in Hc as [[_ Hc]%andb_true_iff _].
      - apply codecMore.PathUnescape_no_percent. revert Hs.
        apply GoStringFacts.all_bytes_impl.
        intros c Hc. unfold url.plain_byte in Hc.
        now apply andb_true_iff in Hc as [_ Hc]. }
    destruct (P _ Hk) as (Hk1 & Hk2 & Hk3). destruct (P _ Hv) as (Hv1 & _ & Hv3).
    pose proof (codecFacts.parse_composite "" keyId keyVersionId eq_refl Hk1 Hv1 Hk2) as H.
    now rewrite Hk3, Hv3 in H.
Qed.

Lemma plain_names_verbatim_witness :
  getKeyVersionCompositeId "ocid1.key.oc1..abc" "ocid1.keyversion.oc1..xyz"
  = "keys/ocid1.key.oc1..abc/keyVersions/ocid1.keyversion.oc1..xyz"
  /\ parseKeyVersionCompositeId "keys/ocid1.key.oc1..abc/keyVersions/ocid1.keyversion.oc1..xyz"
     = ("ocid1.key.oc1..abc", "ocid1.keyversion.oc1..xyz", None).
Proof.
  split.
  - exact (proj1 (plain_names_verbatim "ocid1.key.oc1..abc" "ocid1.keyversion.oc1..xyz")
             eq_refl eq_refl).
  - exact (proj2 (plain_names_verbatim "ocid1.key.oc1..abc" "ocid1.keyversion.oc1..xyz")
             eq_refl eq_refl).
Defined.

(** ** The methods *)

Section Methods.
Context `{sdk : Sdk} `{service : !Service}.
Implicit Types (s : KmsKeyVersionResourceCrud) (w : World) (d : ResourceData).

Lemma lookup_SetData_snapshot (res : KeyVersion) d key :
  fields (SetData_snapshot res d) !! key =
  let time := fun t => SDKTime_String (SDKTime_Time t) in
  let after (A : Type) (render : A -> string) (field : option A) :=
    match field with
    | Some v => Some (render v)
    | None => fields d !! key
    end in
  if decide ("vault_id" = key) then after _ id (KeyVersion_VaultId res)
  else if decide ("time_of_deletion" = key) then after _ time (KeyVersion_TimeOfDeletion res)
  else if decide ("time_created" = key) then after _ time (KeyVersion_TimeCreated res)
  else if decide ("state" = key) then Some (state_string (KeyVersion_LifecycleState res))
  else if decide ("key_id" = key) then after _ id (KeyVersion_KeyId res)
  else if decide ("compartment_id" = key) then after _ id (KeyVersion_CompartmentId res)
  else fields d !! key.
Proof.
  unfold SetData_snapshot. cbv zeta.
  rewrite !lookup_Set_if_present, lookup_Set, !lookup_Set_if_present.
  repeat case_decide; subst; try reflexivity; try congruence.
Qed.

Lemma Id_SetData_snapshot (res : KeyVersion) d : Id (SetData_snapshot res d) = Id d.
Proof.
  unfold SetData_snapshot. cbv zeta. rewrite !Id_Set_if_present. cbn [Set_ Id].
  now rewrite !Id_Set_if_present.
Qed.

Lemma ResourceData_eq d1 d2 :
  Id d1 = Id d2 -> (forall key, fields d1 !! key = fields d2 !! key) -> d1 = d2.
Proof.
  destruct d1 as [i1 f1], d2 as [i2 f2]. cbn. intros -> H. f_equal. now apply map_eq.
Qed.

Lemma Get_on_composite s w keyId keyVersionId client :
  Id (D s) = getKeyVersionCompositeId keyId keyVersionId ->
  Client s = Some client ->
  exists err s' w',
    Get s w = Returns err s' w'
    /\ remote_calls w' =
       (remote_calls w ++
        [GetKeyVersion_call client
           {| Get_KeyId := Some keyId; Get_KeyVersionId := Some keyVersionId;
              Get_RetryPolicy := Some (getRetryPolicy (DisableNotFoundRetries s) "kms") |}])%list.
Proof.
  intros Hid Hclient.
  unfold Get. rewrite Hid, codecMore.parse_getKeyVersionCompositeId, Hclient.
  unfold Client_GetKeyVersion.
  destruct (GetKeyVersion_response _ _ _); eexists _, _, _; split; reflexivity.
Qed.

(** X5. A request carries the pair the identifier was made of.  When the
    stored identifier is the composite identifier of a key and a key
    version, whatever bytes they hold, [Get] makes one call, for this key
    and this key version; and [Delete], when [time_of_deletion] is not set,
    makes one call that schedules the deletion of this key version with no
    time, and returns what the service answers. *)
Theorem requests_carry_the_pair s w keyId keyVersionId client :
  Id (D s) = getKeyVersionCompositeId keyId keyVersionId ->
  Client s = Some client ->
  let retry := Some (getRetryPolicy (DisableNotFoundRetries s) "kms") in
  (exists err s' w',
     Get s w = Returns err s' w'
     /\ remote_calls w' =
        (remote_calls w ++
         [GetKeyVersion_call client
            {| Get_KeyId := Some keyId; Get_KeyVersionId := Some keyVersionId;
               Get_RetryPolicy := retry |}])%list)
  /\ (GetOkExists (D s) "time_of_deletion" = None ->
      let request :=
        {| Schedule_KeyId := Some keyId; Schedule_KeyVersionId := Some keyVersionId;
           Schedule_TimeOfDeletion := None; Schedule_RetryPolicy := retry |} in
      Delete s w =
        Returns (ScheduleKeyVersionDeletion_response client request (remote_calls w)) s
          (record_call (ScheduleKeyVersionDeletion_call client request) w)).
Proof.
  intros Hid Hclient retry. split.
  - now apply Get_on_composite.
  - intros Htime request. unfold Delete.
    now rewrite Hid, codecMore.parse_getKeyVersionCompositeId, Htime, Hclient.
Qed.

(** X6. The identity does not drift over a refresh.  When the stored
    identifier is the composite identifier of a key and a key version, and
    the service answers [Get] with a snapshot naming this key and this key
    version, then [ID] after the [Get] is the stored identifier again. *)
Theorem identity_stable_over_Get s w keyId keyVersionId client response :
  Id (D s) = getKeyVersionCompositeId keyId keyVersionId ->
  Client s = Some client ->
  GetKeyVersion_response client
    {| Get_KeyId := Some keyId; Get_KeyVersionId := Some keyVersionId;
       Get_RetryPolicy := Some (getRetryPolicy (DisableNotFoundRetries s) "kms") |}
    (remote_calls w) = inl response ->
  KeyVersion_KeyId response = Some keyId ->
  KeyVersion_Id response = Some keyVersionId ->
  exists s' w', Get s w = Returns None s' w' /\ ID s' = Some (Id (D s)) /\ D s' = D s.
Proof.
  intros Hid Hclient Hresponse Hk Hv.
  exists (with_Res s response), (record_call (GetKeyVersion_call client
    {| Get_KeyId := Some keyId; Get_KeyVersionId := Some keyVersionId;
       Get_RetryPolicy := Some (getRetryPolicy (DisableNotFoundRetries s) "kms") |}) w).
  split; [|split; [|reflexivity]].
  - unfold Get. rewrite Hid, codecMore.parse_getKeyVersionCompositeId, Hclient.
    unfold Client_GetKeyVersion. now rewrite Hresponse.
  - unfold ID, with_Res. cbn [Res]. now rewrite Hk, Hv, Hid.
Qed.

Ltac framed :=
  repeat match goal with
         | |- _ /\ _ => split
         | |- _ = _ => first [reflexivity | assumption]
         | |- _ <> None -> _ =>
             let H := fresh in intros H; first [reflexivity | now destruct H]
         | |- _ \/ _ =>
             first [left; reflexivity | right; eexists; split; [eauto | reflexivity]]
         end.

(** X7. [Create], [Get] and [Delete] leave the local store alone, and talk
    to the service at most once.  Each returns the synchronizer with the
    same store, client and retry flag, and unchanged altogether when it
    returns an error; [Delete] never changes it.  The environment is as
    before, and the service has received either nothing or one call, of the
    method's own kind.  A method stops on a nil pointer only when the
    synchronizer has no client. *)
Theorem methods_leave_store_alone s w :
  let frame (kind : RemoteCall -> Prop) (o : outcome KmsKeyVersionResourceCrud) :=
    match o with
    | Panic => Client s = None
    | Returns err s' w' =>
        D s' = D s /\ Client s' = Client s
        /\ DisableNotFoundRetries s' = DisableNotFoundRetries s
        /\ (err <> None -> s' = s)
        /\ environ w' = environ w
        /\ (remote_calls w' = remote_calls w
            \/ exists call, kind call /\ remote_calls w' = (remote_calls w ++ [call])%list)
    end in
  frame (fun call => exists c r, call = CreateKeyVersion_call c r) (Create s w)
  /\ frame (fun call => exists c r, call = GetKeyVersion_call c r) (Get s w)
  /\ frame (fun call => exists c r, call = ScheduleKeyVersionDeletion_call c r) (Delete s w)
  /\ (forall err s' w', Delete s w = Returns err s' w' -> s' = s).
Proof.
  intros frame. subst frame. cbv beta.
  split; [|split; [|split]].
  - unfold Create. destruct (Client s) as [client|] eqn:Hclient; [|reflexivity].
    unfold Client_CreateKeyVersion.
    destruct (CreateKeyVersion_response _ _ _) as [response|err]; framed.
  - unfold Get.
    destruct (parseKeyVersionCompositeId (Id (D s))) as [[keyId keyVersionId] [e|]];
      [framed|].
    destruct (Client s) as [client|] eqn:Hclient; [|reflexivity].
    unfold Client_GetKeyVersion.
    destruct (GetKeyVersion_response _ _ _) as [response|err]; framed.
  - unfold Delete.
    destruct (parseKeyVersionCompositeId (Id (D s))) as [[keyId keyVersionId] [e|]];
      [framed|].
    destruct (GetOkExists (D s) "time_of_deletion") as [timeOfDeletion|].
    + destruct (time_Parse RFC3339Nano timeOfDeletion) as [tmpTime|err]; [|framed].
      destruct (Client s) as [client|] eqn:Hclient; [|reflexivity].
      unfold Client_ScheduleKeyVersionDeletion. framed.
    + destruct (Client s) as [client|] eqn:Hclient; [|reflexivity].
      unfold Client_ScheduleKeyVersionDeletion. framed.
  - intros err s' w'. unfold Delete.
    destruct (parseKeyVersionCompositeId (Id (D s))) as [[keyId keyVersionId] [e|]].
    + now intros [= _ <- _].
    + destruct (GetOkExists (D s) "time_of_deletion") as [timeOfDeletion|].
      * destruct (time_Parse RFC3339Nano timeOfDeletion) as [tmpTime|err'].
        -- destruct (Client s) as [client|]; [|discriminate]. now intros [= _ <- _].
        -- now intros [= _ <- _].
      * destruct (Client s) as [client|]; [|discriminate]. now intros [= _ <- _].
Qed.

End Methods.

Section Flows.
Context `{sdk : Sdk} `{service : !Service}.
Implicit Types (s : KmsKeyVersionResourceCrud) (w : World) (d : ResourceData).

(** X8. [Create] and the first [Get].  [Create] makes one call, with the
    [key_id] of the store, or with no key when the store has none.  When
    the service refuses, its error is returned, the synchronizer is as
    before and no time is spent.  When the service answers, [Create] returns
    [nil], the snapshot [Res] is that answer, the rest of the synchronizer
    is as before, and 30 seconds are slept; and if the answer names its key
    and itself, [ID] is their composite identifier, and a [Get] on a store
    holding that identifier asks for this very key and key version. *)
Theorem Create_then_Get s w client :
  Client s = Some client ->
  let request :=
    {| Create_KeyId := GetOkExists (D s) "key_id";
       Create_RetryPolicy := Some (getRetryPolicy (DisableNotFoundRetries s) "kms") |} in
  let w1 := record_call (CreateKeyVersion_call client request) w in
  remote_calls w1 = (remote_calls w ++ [CreateKeyVersion_call client request])%list
  /\ match CreateKeyVersion_response client request (remote_calls w) with
     | inr err =>
         Create s w = Returns (Some err) s w1 /\ slept_seconds w1 = slept_seconds w
     | inl response =>
         exists s' w',
           Create s w = Returns None s' w'
           /\ Res s' = Some response
           /\ D s' = D s /\ Client s' = Some client
           /\ DisableNotFoundRetries s' = DisableNotFoundRetries s
           /\ remote_calls w' = remote_calls w1
           /\ slept_seconds w' = slept_seconds w + 30
           /\ forall keyId id,
                KeyVersion_KeyId response = Some keyId ->
                KeyVersion_Id response = Some id ->
                ID s' = Some (getKeyVersionCompositeId keyId id)
                /\ exists err2 s2 w2,
                     Get (with_D s' (SetId (D s') (getKeyVersionCompositeId keyId id))) w'
                     = Returns err2 s2 w2
                     /\ remote_calls w2 =
                        (remote_calls w' ++
                         [GetKeyVersion_call client
                            {| Get_KeyId := Some keyId; Get_KeyVersionId := Some id;
                               Get_RetryPolicy :=
                                 Some (getRetryPolicy (DisableNotFoundRetries s) "kms") |}])%list
     end.
Proof.
  intros Hclient request w1. split; [reflexivity|].
  unfold Create. rewrite Hclient. unfold Client_CreateKeyVersion.
  fold request. fold w1.
  destruct (CreateKeyVersion_response client request (remote_calls w)) as [response|err];
    [|split; reflexivity].
  exists (with_Res s response), (time_Sleep 30 w1).
  split; [reflexivity|]. split; [reflexivity|]. split; [reflexivity|].
  split; [exact Hclient|]. split; [reflexivity|]. split; [reflexivity|].
  split; [reflexivity|].
  intros keyId id Hk Hi. split.
  - unfold ID, with_Res. cbn [Res]. now rewrite Hk, Hi.
  - exact (Get_on_composite
             (with_D (with_Res s response)
                (SetId (D (with_Res s response)) (getKeyVersionCompositeId keyId id)))
             (time_Sleep 30 w1) keyId id client eq_refl Hclient).
Qed.

Lemma SetData_snapshot_again (res : KeyVersion) d1 d2 :
  Id d2 = Id d1 ->
  (forall key, key <> "key_id" -> key <> "key_version_id" ->
               fields d2 !! key = fields (SetData_snapshot res d1) !! key) ->
  fields d2 !! "key_version_id" = fields d1 !! "key_version_id" ->
  (KeyVersion_KeyId res = None -> fields d2 !! "key_id" = fields d1 !! "key_id") ->
  SetData_snapshot res d2 = SetData_snapshot res d1.
Proof.
  intros HId Hother Hversion Hkey. apply ResourceData_eq.
  - now rewrite !Id_SetData_snapshot.
  - intros key. rewrite (lookup_SetData_snapshot res d2). cbv zeta.
    repeat case_decide; subst.
    + rewrite Hother by discriminate. rewrite !lookup_SetData_snapshot. cbv zeta.
      repeat case_decide; try congruence. now destruct (KeyVersion_VaultId res).
    + rewrite Hother by discriminate. rewrite !lookup_SetData_snapshot. cbv zeta.
      repeat case_decide; try congruence. now destruct (KeyVersion_TimeOfDeletion res).
    + rewrite Hother by discriminate. rewrite !lookup_SetData_snapshot. cbv zeta.
      repeat case_decide; try congruence. now destruct (KeyVersion_TimeCreated res).
    + rewrite !lookup_SetData_snapshot. cbv zeta. repeat case_decide; congruence.
    + rewrite !lookup_SetData_snapshot. cbv zeta. repeat case_decide; try congruence.
      destruct (KeyVersion_KeyId res); [reflexivity | now apply Hkey].
    + rewrite Hother by discriminate. rewrite !lookup_SetData_snapshot. cbv zeta.
      repeat case_decide; try congruence. now destruct (KeyVersion_CompartmentId res).
    + destruct (decide (key = "key_version_id")) as [->|Hne].
      * rewrite Hversion, lookup_SetData_snapshot. cbv zeta.
        repeat case_decide; congruence.
      * rewrite Hother by congruence. reflexivity.
Qed.

Lemma SetData_runs s w res :
  Res s = Some res ->
  SetData s w =
    Returns None (with_D s (SetData_snapshot res (fst (SetData_identifier (D s) w))))
      (snd (SetData_identifier (D s) w)).
Proof.
  intros Hres. unfold SetData. rewrite Hres. now destruct (SetData_identifier (D s) w).
Qed.

Lemma SetData_identifier_spec d w :
  Id (fst (SetData_identifier d w)) = Id d
  /\ remote_calls (snd (SetData_identifier d w)) = remote_calls w
  /\ forall key,
       fields (fst (SetData_identifier d w)) !! key =
       match parseKeyVersionCompositeId (Id d) with
       | (keyId, keyVersionId, None) =>
           if decide ("key_version_id" = key) then Some keyVersionId
           else if decide ("key_id" = key) then Some keyId
           else fields d !! key
       | (_, _, Some _) => fields d !! key
       end.
Proof.
  unfold SetData_identifier.
  destruct (parseKeyVersionCompositeId (Id d)) as [[k v] [e|]]; cbn [fst snd].
  - repeat split; reflexivity.
  - repeat split; try reflexivity. intros key. now rewrite !lookup_Set.
Qed.

(** X9. [SetData] is idempotent: run again on its own result, with the same
    snapshot, it returns [nil] and leaves the synchronizer, store included,
    as the first run left it; neither run calls the service. *)
Theorem SetData_idempotent s w err s1 w1 :
  SetData s w = Returns err s1 w1 ->
  err = None
  /\ remote_calls w1 = remote_calls w
  /\ exists w2, SetData s1 w1 = Returns None s1 w2 /\ remote_calls w2 = remote_calls w.
Proof.
  destruct (Res s) as [res|] eqn:Hres.
  2:{ unfold SetData. rewrite Hres. now destruct (SetData_identifier (D s) w). }
  rewrite (SetData_runs s w res Hres). intros [= <- <- <-].
  destruct (SetData_identifier_spec (D s) w) as (HId1 & Hcalls1 & Hfields1).
  set (d1 := fst (SetData_identifier (D s) w)) in *.
  set (w1 := snd (SetData_identifier (D s) w)) in *.
  split; [reflexivity|]. split; [exact Hcalls1|].
  rewrite (SetData_runs (with_D s (SetData_snapshot res d1)) w1 res Hres).
  cbn [D with_D].
  destruct (SetData_identifier_spec (SetData_snapshot res d1) w1) as (HId2 & Hcalls2 & Hfields2).
  set (d2 := fst (SetData_identifier (SetData_snapshot res d1) w1)) in *.
  eexists. split; [|now rewrite Hcalls2].
  replace (SetData_snapshot res d2) with (SetData_snapshot res d1); [reflexivity|].
  symmetry. rewrite Id_SetData_snapshot, HId1 in Hfields2.
  assert (Hsnap : forall key, key = "key_version_id" \/ (key = "key_id" /\ KeyVersion_KeyId res = None) ->
            fields (SetData_snapshot res d1) !! key = fields d1 !! key).
  { intros key Hkey. rewrite lookup_SetData_snapshot. cbv zeta.
    destruct Hkey as [->|[-> HKey]]; repeat case_decide; try congruence.
    now rewrite HKey. }
  apply SetData_snapshot_again.
  - now rewrite HId2, Id_SetData_snapshot.
  - intros key Hk Hv. rewrite Hfields2.
    destruct (parseKeyVersionCompositeId (Id (D s))) as [[k v] [e|]]; [reflexivity|].
    repeat case_decide; congruence.
  - rewrite Hfields2, Hfields1.
    destruct (parseKeyVersionCompositeId (Id (D s))) as [[k v] [e|]] eqn:Hp.
    + rewrite Hsnap by auto. rewrite Hfields1, ?Hp. reflexivity.
    + repeat case_decide; congruence.
  - intros HKey. rewrite Hfields2, Hfields1.
    destruct (parseKeyVersionCompositeId (Id (D s))) as [[k v] [e|]] eqn:Hp.
    + rewrite Hsnap by auto. rewrite Hfields1, ?Hp. reflexivity.
    + repeat case_decide; congruence.
Qed.

End Flows.

(** ** The entry points *)

Section EntryPoints.
Context `{sdk : Sdk} `{service : !Service} `{driver : !Driver}.
Implicit Types (s : KmsKeyVersionResourceCrud) (w : World) (d : ResourceData).

Lemma composite_is_no_import_string (keyId keyVersionId : string) :
  FindStringSubmatch importIdRegexp (getKeyVersionCompositeId keyId keyVersionId) = [].
Proof.
  destruct (importFacts.FindStringSubmatch_import (getKeyVersionCompositeId keyId keyVersionId))
    as [(ep & k & v & _ & H & _) | [H _]]; [discriminate H | exact H].
Qed.

(** X10. An import is done once.  After the import has cut the identifier
    into an endpoint, a key and a key version, the store it has written
    reads like any stored resource: reading the import string and reading
    the written store are the same run, the new identifier decodes to the
    imported key and key version, it is no import string itself, and the
    first step of [SetData] finds [key_id] and [key_version_id] already as
    it would write them. *)
Theorem import_done_once d (m : OracleClients) w whole endpoint keyId keyVersionId :
  GetOkExists d "management_endpoint" = None ->
  FindStringSubmatch importIdRegexp (Id d) = [whole; endpoint; keyId; keyVersionId] ->
  let d' :=
    {| Id := getKeyVersionCompositeId keyId keyVersionId;
       fields := <["key_version_id" := keyVersionId]>
                   (<["key_id" := keyId]>
                      (<["management_endpoint" := endpoint]> (fields d))) |} in
  readKmsKeyVersion d m w = readKmsKeyVersion d' m w
  /\ parseKeyVersionCompositeId (Id d') = (keyId, keyVersionId, None)
  /\ FindStringSubmatch importIdRegexp (Id d') = []
  /\ SetData_identifier d' w = (d', w).
Proof.
  intros Hendpoint Htokens d'.
  assert (Hparse : parseKeyVersionCompositeId (Id d') = (keyId, keyVersionId, None))
    by apply codecMore.parse_getKeyVersionCompositeId.
  split; [|split; [exact Hparse | split; [apply composite_is_no_import_string|]]].
  - unfold readKmsKeyVersion at 1. rewrite Hendpoint. cbv zeta.
    change (Compile importIdPattern) with (Some importIdRegexp). cbv iota beta.
    rewrite Htokens. cbn [List.length Nat.eqb nth].
    assert (Hset : GetOkExists d' "management_endpoint" = Some endpoint).
    { unfold GetOkExists, d'. cbn [fields].
      rewrite lookup_insert_ne, lookup_insert_ne by discriminate. apply lookup_insert_eq. }
    unfold readKmsKeyVersion. rewrite Hset. reflexivity.
  - unfold SetData_identifier. rewrite Hparse. f_equal.
    apply ResourceData_eq; [reflexivity|]. intros key. rewrite !lookup_Set.
    unfold d'. cbn [fields]. rewrite !lookup_insert.
    repeat case_decide; congruence.
Qed.

(** X12. No client, no driver.  Without [management_endpoint],
    [createKmsKeyVersion] and, with the guard off, [deleteKmsKeyVersion]
    return the missing-endpoint error.  When the client factory fails, the
    three entry points return its error.  In all these cases the driver is
    not run and the world is as before; the store is as before too, except
    after an import: [readKmsKeyVersion] has then already written the
    imported fields and the new identifier when the factory fails. *)
Theorem no_client_no_driver d (m : OracleClients) w :
  let guard_off :=
    fst (strconv.ParseBool (getEnvSettingWithDefault w "disable_kms_version_delete" "false"))
    = false in
  (GetOkExists d "management_endpoint" = None ->
   createKmsKeyVersion d m w = Returns (Some management_endpoint_missing) d w
   /\ (guard_off ->
       deleteKmsKeyVersion d m w = Returns (Some management_endpoint_missing) d w))
  /\ (forall endpoint err,
        GetOkExists d "management_endpoint" = Some endpoint ->
        OracleClients_KmsManagementClient m endpoint = inr err ->
        createKmsKeyVersion d m w = Returns (Some err) d w
        /\ readKmsKeyVersion d m w = Returns (Some err) d w
        /\ (guard_off -> deleteKmsKeyVersion d m w = Returns (Some err) d w))
  /\ (forall whole endpoint keyId keyVersionId err,
        GetOkExists d "management_endpoint" = None ->
        FindStringSubmatch importIdRegexp (Id d) = [whole; endpoint; keyId; keyVersionId] ->
        OracleClients_KmsManagementClient m endpoint = inr err ->
        exists d',
          readKmsKeyVersion d m w = Returns (Some err) d' w
          /\ Id d' = getKeyVersionCompositeId keyId keyVersionId
          /\ GetOkExists d' "management_endpoint" = Some endpoint
          /\ GetOkExists d' "key_id" = Some keyId
          /\ GetOkExists d' "key_version_id" = Some keyVersionId).
Proof.
  intros guard_off. subst guard_off. split; [|split].
  - intros Hnone. unfold createKmsKeyVersion, deleteKmsKeyVersion. rewrite Hnone.
    split; [reflexivity|]. cbv zeta. now intros ->.
  - intros endpoint err Hsome Hfail.
    unfold createKmsKeyVersion, readKmsKeyVersion, deleteKmsKeyVersion.
    rewrite Hsome, Hfail. split; [reflexivity|]. split; [reflexivity|].
    cbv zeta. now intros ->.
  - intros whole endpoint keyId keyVersionId err Hnone Htokens Hfail.
    unfold readKmsKeyVersion. rewrite Hnone. cbv zeta.
    change (Compile importIdPattern) with (Some importIdRegexp). cbv iota beta.
    rewrite Htokens. cbn [List.length Nat.eqb nth]. rewrite Hfail.
    eexists. split; [reflexivity|]. split; [reflexivity|].
    unfold GetOkExists. cbn [SetId Set_ fields].
    split; [|split].
    + rewrite lookup_insert_ne, lookup_insert_ne by discriminate. apply lookup_insert_eq.
    + rewrite lookup_insert_ne by discriminate. apply lookup_insert_eq.
    + apply lookup_insert_eq.
Qed.

End EntryPoints.

(** ** The protocols of a ping monitor *)

Lemma NoDup_pair (a b : string) : a <> b -> NoDup [a; b].
Proof.
  intros Hab. apply NoDup_cons_2; [|apply NoDup_singleton].
  rewrite elem_of_cons, elem_of_nil. tauto.
Qed.

(** X13. [GetPingMonitorSummaryProtocolEnumValues] returns each allowed
    protocol once, in whichever order the map is ranged over: the result is
    a rearrangement of [ICMP], [TCP], and a value is in it exactly when the
    mapping sends the name of that value to it. *)
Theorem protocol_values_each_once (order : list string) :
  healthchecks.range_order order ->
  healthchecks.GetPingMonitorSummaryProtocolEnumValues order
    ≡ₚ [healthchecks.PingMonitorSummaryProtocolIcmp; healthchecks.PingMonitorSummaryProtocolTcp]
  /\ NoDup (healthchecks.GetPingMonitorSummaryProtocolEnumValues order)
  /\ forall v,
       v ∈ healthchecks.GetPingMonitorSummaryProtocolEnumValues order <->
       healthchecks.mappingPingMonitorSummaryProtocol !! v = Some v.
Proof.
  unfold healthchecks.range_order. intros Horder.
  assert (Hlookup : forall k,
    healthchecks.mappingPingMonitorSummaryProtocol !! k =
    if decide (k = "ICMP") then Some "ICMP" else if decide (k = "TCP") then Some "TCP" else None).
  { intros k. unfold healthchecks.mappingPingMonitorSummaryProtocol.
    unfold healthchecks.PingMonitorSummaryProtocolIcmp,
      healthchecks.PingMonitorSummaryProtocolTcp.
    cbn [list_to_map foldr fst snd]. rewrite !lookup_insert, lookup_empty.
    repeat case_decide; congruence. }
  assert (Hkeys : elements (dom healthchecks.mappingPingMonitorSummaryProtocol)
                  ≡ₚ ["ICMP"; "TCP"]).
  { apply NoDup_Permutation.
    - apply NoDup_elements.
    - apply NoDup_pair; discriminate.
    - intros k. rewrite elem_of_elements, elem_of_dom, Hlookup.
      rewrite !elem_of_cons, elem_of_nil. unfold is_Some.
      destruct (decide (k = "ICMP")) as [->|?]; [split; eauto|].
      destruct (decide (k = "TCP")) as [->|?]; [split; eauto|].
      split; [intros [? ?]; discriminate | tauto]. }
  rewrite Hkeys in Horder.
  assert (Hin : forall v, healthchecks.mappingPingMonitorSummaryProtocol !! v = Some v
                          <-> v = "ICMP" \/ v = "TCP").
  { intros v. rewrite Hlookup.
    destruct (decide (v = "ICMP")) as [->|?]; [split; auto|].
    destruct (decide (v = "TCP")) as [->|?]; [split; auto|].
    split; [discriminate | tauto]. }
  assert (H1 : healthchecks.GetPingMonitorSummaryProtocolEnumValues ["ICMP"; "TCP"]
               = ["ICMP"; "TCP"]) by (vm_compute; reflexivity).
  assert (H2 : healthchecks.GetPingMonitorSummaryProtocolEnumValues ["TCP"; "ICMP"]
               = ["TCP"; "ICMP"]) by (vm_compute; reflexivity).
  symmetry in Horder. apply Permutation_length_2_inv in Horder as [-> | ->];
    rewrite ?H1, ?H2; (split; [|split]).
  - reflexivity.
  - apply NoDup_pair; discriminate.
  - intros v. rewrite Hin, !elem_of_cons, elem_of_nil. tauto.
  - apply perm_swap.
  - apply NoDup_pair; discriminate.
  - intros v. rewrite Hin, !elem_of_cons, elem_of_nil. tauto.
Qed.

(** ** The further properties on the stub *)

Lemma requests_carry_the_pair_witness :
  let s := synced (stored (getKeyVersionCompositeId "a/b" "v 1") []) None in
  Id (D s) = "keys/a%2Fb/keyVersions/v%201"
  /\ Client s = Some "ep1"
  /\ (exists err s' w',
        Get s world0 = Returns err s' w'
        /\ remote_calls w' =
           [GetKeyVersion_call "ep1"
              {| Get_KeyId := Some "a/b"; Get_KeyVersionId := Some "v 1";
                 Get_RetryPolicy := Some (false, "kms") |}]).
Proof.
  intros s. split; [reflexivity|]. split; [reflexivity|].
  exact (proj1 (requests_carry_the_pair s world0 "a/b" "v 1" "ep1" eq_refl eq_refl)).
Defined.

Lemma identity_stable_over_Get_witness :
  let s := synced (stored "keys/k1/keyVersions/v1" []) None in
  Id (D s) = getKeyVersionCompositeId "k1" "v1"
  /\ exists s' w',
       Get s world0 = Returns None s' w'
       /\ ID s' = Some "keys/k1/keyVersions/v1" /\ D s' = D s.
Proof.
  intros s. split; [reflexivity|].
  exact (identity_stable_over_Get s world0 "k1" "v1" "ep1" the_key_version
           eq_refl eq_refl eq_refl eq_refl eq_refl).
Defined.

Lemma Create_then_Get_witness :
  let s := synced (stored "" [("key_id", "k1")]) None in
  let refused := StubNoClient.synced (stored "" []) in
  Client s = Some "ep1"
  /\ (exists s' w',
        Create s world0 = Returns None s' w'
        /\ Res s' = Some the_key_version
        /\ remote_calls w' =
           [CreateKeyVersion_call "ep1"
              {| Create_KeyId := Some "k1"; Create_RetryPolicy := Some (false, "kms") |}]
        /\ slept_seconds w' = 30
        /\ ID s' = Some "keys/k1/keyVersions/v1")
  /\ Client (sdk := StubNoClient.sdk) refused = Some "ep1"
  /\ Create (sdk := StubNoClient.sdk) (service := StubNoClient.service) refused
       StubNoClient.world0
     = Returns (sdk := StubNoClient.sdk) (Some (collaborator_error "unreachable")) refused
         (record_call (sdk := StubNoClient.sdk)
            (CreateKeyVersion_call (sdk := StubNoClient.sdk) "ep1"
               (mkCreateKeyVersionRequest (sdk := StubNoClient.sdk) None
                  (Some (false, "kms"))))
            StubNoClient.world0).
Proof.
  intros s refused. split; [reflexivity|]. split.
  - destruct (Create_then_Get s world0 "ep1" eq_refl)
      as (_ & s' & w' & Hrun & Hres & _ & _ & _ & Hcalls & Hslept & Hid).
    destruct (Hid "k1" "v1" eq_refl eq_refl) as [HID _].
    exists s', w'. repeat split; assumption.
  - split; [reflexivity|].
    exact (proj1 (proj2 (Create_then_Get (sdk := StubNoClient.sdk)
                           (service := StubNoClient.service) refused
                           StubNoClient.world0 "ep1" eq_refl))).
Defined.

Lemma SetData_idempotent_witness :
  let s := synced (stored "keys/k1/keyVersions/v1" [("vault_id", "old vault")])
             (Some the_key_version) in
  exists s1 w1 w2,
    SetData s world0 = Returns None s1 w1
    /\ SetData s1 w1 = Returns None s1 w2
    /\ fields (D s1) !! "key_version_id" = Some "v1".
Proof.
  intros s.
  pose (s1 := with_D s (SetData_snapshot the_key_version
                          (fst (SetData_identifier (D s) world0)))).
  assert (Hrun : SetData s world0 = Returns None s1 world0) by reflexivity.
  destruct (SetData_idempotent s world0 None s1 world0 Hrun) as (_ & _ & w2 & Hagain & _).
  exists s1, world0, w2. split; [exact Hrun|]. split; [exact Hagain | reflexivity].
Defined.

Lemma import_done_once_witness :
  let d := stored "managementEndpoint/ep1/keys/k/1/keyVersions/v1" [] in
  let d' := stored "keys/k%2F1/keyVersions/v1"
              [("key_version_id", "v1"); ("key_id", "k/1"); ("management_endpoint", "ep1")] in
  GetOkExists d "management_endpoint" = None
  /\ FindStringSubmatch importIdRegexp (Id d) = [Id d; "ep1"; "k/1"; "v1"]
  /\ readKmsKeyVersion d clients world0 = readKmsKeyVersion d' clients world0
  /\ parseKeyVersionCompositeId (Id d') = ("k/1", "v1", None)
  /\ FindStringSubmatch importIdRegexp (Id d') = []
  /\ SetData_identifier d' world0 = (d', world0).
Proof.
  intros d d'. split; [reflexivity|]. split; [reflexivity|].
  exact (import_done_once d clients world0 (Id d) "ep1" "k/1" "v1" eq_refl eq_refl).
Defined.

Lemma no_client_no_driver_witness :
  let d := stored "managementEndpoint/ep1/keys/k1/keyVersions/v1" [] in
  GetOkExists d "management_endpoint" = None
  /\ createKmsKeyVersion (driver := StubNoClient.driver) d StubNoClient.clients
       StubNoClient.world0
     = Returns (Some management_endpoint_missing) d StubNoClient.world0
  /\ exists d',
       readKmsKeyVersion (driver := StubNoClient.driver) d StubNoClient.clients
         StubNoClient.world0
       = Returns (Some (collaborator_error "no client for ep1")) d' StubNoClient.world0
       /\ Id d' = "keys/k1/keyVersions/v1"
       /\ GetOkExists d' "management_endpoint" = Some "ep1"
       /\ GetOkExists d' "key_id" = Some "k1"
       /\ GetOkExists d' "key_version_id" = Some "v1".
Proof.
  intros d. split; [reflexivity|].
  pose proof (no_client_no_driver (driver := StubNoClient.driver) d StubNoClient.clients
                StubNoClient.world0) as (Hmissing & _ & Himport).
  split; [exact (proj1 (Hmissing eq_refl))|].
  exact (Himport (Id d) "ep1" "k1" "v1" (collaborator_error "no client for ep1")
           eq_refl eq_refl eq_refl).
Defined.

Lemma protocol_values_each_once_witness :
  healthchecks.range_order ["TCP"; "ICMP"]
  /\ healthchecks.GetPingMonitorSummaryProtocolEnumValues ["TCP"; "ICMP"] ≡ₚ ["ICMP"; "TCP"].
Proof.
  assert (Horder : healthchecks.range_order ["TCP"; "ICMP"]).
  { unfold healthchecks.range_order.
    assert (E : elements (dom healthchecks.mappingPingMonitorSummaryProtocol) = ["ICMP"; "TCP"]
                \/ elements (dom healthchecks.mappingPingMonitorSummaryProtocol) = ["TCP"; "ICMP"]).
    { vm_compute. first [left; reflexivity | right; reflexivity]. }
    destruct E as [-> | ->]; [apply perm_swap | reflexivity]. }
  split; [exact Horder|].
  exact (proj1 (protocol_values_each_once ["TCP"; "ICMP"] Horder)).
Defined.

(** ** Importing with an endpoint that holds slashes *)

Module importMore.
Import GoString GoStringFacts regexp regexpFacts importFacts.

(** [.*] is greedy: the run it settles on is at least as long as any run
    after which the rest of the pattern would match. *)
Lemma star_any_greedy {R : Type} (k : nat -> string -> option R) (s : string) :
  forall pos r,
    star_any pos s k = Some r ->
    forall x rest,
      s = x ++ rest -> all_bytes notNL x = true ->
      is_Some (k (pos + String.length x) rest) ->
      exists x' rest',
        s = x' ++ rest' /\ String.length x <= String.length x'
        /\ all_bytes notNL x' = true /\ k (pos + String.length x') rest' = Some r.
Proof.
  induction s as [|c s IH]; intros pos r H x rest Hs Hx Hk.
  - destruct x; [|discriminate]. cbn in Hs. subst rest.
    exists "", "". cbn in *. rewrite Nat.add_0_r in *. auto.
  - cbn [star_any] in H.
    assert (Hempty : k pos (String c s) = Some r -> x = "" ->
              exists x' rest',
                String c s = x' ++ rest' /\ String.length x <= String.length x'
                /\ all_bytes notNL x' = true /\ k (pos + String.length x') rest' = Some r).
    { intros Hr ->. exists "", (String c s). cbn. rewrite Nat.add_0_r. auto. }
    destruct x as [|c' x].
    + destruct (notNL c) eqn:Hc; [|auto].
      destruct (star_any (S pos) s k) as [r'|] eqn:E; [|auto].
      injection H as ->. apply star_any_sound in E as (x' & rest' & -> & Hx' & Hr).
      exists (String c x'), rest'. cbn [String.append all_bytes String.length].
      rewrite Hc, Hx'. repeat split; [lia|].
      now replace (pos + S (String.length x')) with (S pos + String.length x') by lia.
    + cbn [String.append] in Hs. injection Hs as <- ->.
      cbn [all_bytes] in Hx. apply andb_true_iff in Hx as [Hc Hx]. rewrite Hc in H.
      cbn [String.length] in Hk.
      replace (pos + S (String.length x)) with (S pos + String.length x) in Hk by lia.
      destruct (star_any (S pos) (x ++ rest) k) as [r'|] eqn:E.
      * injection H as ->.
        destruct (IH (S pos) r E x rest eq_refl Hx Hk) as (x' & rest' & Hs' & Hlen & Hx' & Hr).
        exists (String c x'), rest'. cbn [String.append all_bytes String.length].
        rewrite Hs', Hc, Hx'. repeat split; [lia|].
        now replace (pos + S (String.length x')) with (S pos + String.length x') by lia.
      * exfalso. destruct (star_any_complete k (S pos) x rest Hx Hk) as [? Hsome].
        congruence.
Qed.

Lemma append_inv_head (p a b : string) : p ++ a = p ++ b -> a = b.
Proof. induction p as [|c p IH]; cbn; [auto | intros [= H]; auto]. Qed.

Lemma append_longer (a b a' b' : string) :
  a ++ b = a' ++ b' -> String.length a <= String.length a' ->
  exists t, a' = a ++ t /\ b = t ++ b'.
Proof.
  revert a'. induction a as [|c a IH]; intros a' H Hlen.
  - exists a'. cbn in *. auto.
  - destruct a' as [|c' a']; [cbn in Hlen; lia|].
    cbn in H. injection H as <- H. cbn in Hlen.
    destruct (IH a' H ltac:(lia)) as (t & -> & ->). now exists t.
Qed.

(** The groups of a match on a string of the import format whose key and
    key version hold no slash: with the endpoint taking all it can, they
    are the three segments. *)
Lemma import_groups (e k v : string) (en : nat) (caps : list string) :
  all_bytes notNL e = true -> all_bytes notNL k = true -> all_bytes notNL v = true ->
  count_byte "/" k = 0 -> count_byte "/" v = 0 ->
  match_at importIdRegexp 0 (import_format e k v) = Some (en, caps) ->
  caps = [e; k; v].
Proof.
  intros He Hk Hv Hks Hvs H.
  unfold match_at, importIdRegexp, import_format in H.
  rewrite run_Concat, run_BeginText in H. cbn [Nat.eqb] in H.
  rewrite run_Concat, run_Literal, strip_prefix_append in H.
  rewrite run_Concat in H.
  change (run (Capture AnyNotNLStar)) with
    (fun pos s caps (k0 : nat -> string -> list string -> option (nat * list string)) =>
       star_any pos s (fun pos' s' => k0 pos' s' (caps ++ [take (pos' - pos) s])%list)) in H.
  cbv beta in H.
  eapply star_any_greedy with (x := e) (rest := "/keys/" ++ k ++ "/keyVersions/" ++ v) in H;
    [|reflexivity|exact He|].
  2:{ rewrite run_Concat, run_Literal, strip_prefix_append.
      rewrite run_Concat. apply capture_star_complete; [exact Hk|].
      rewrite run_Concat, run_Literal, strip_prefix_append.
      rewrite run_Concat. rewrite <- (append_nil_r v) at 1.
      apply capture_star_complete; [exact Hv|]. rewrite run_EndText. eauto. }
  destruct H as (e' & r1 & Hs & Hlen & He' & H).
  replace (0 + String.length "managementEndpoint/" + String.length e'
           - (0 + String.length "managementEndpoint/")) with (String.length e') in H by lia.
  rewrite Hs, take_append in H.
  literal_in H s2. group_in H k' r2 Hk'.
  literal_in H s3. group_in H v' r3 Hv'.
  rewrite run_EndText in H. destruct r3; [|discriminate]. injection H as <- <-.
  rewrite append_nil_r in Hs.
  destruct (append_longer _ _ _ _ Hs Hlen) as (t & -> & Ht).
  assert (Hcount : count_byte "/" t + count_byte "/" k' + count_byte "/" v' = 0).
  { apply (f_equal (count_byte "/")) in Ht.
    rewrite !count_byte_append in Ht. cbn [count_byte Ascii.eqb Bool.eqb] in Ht. lia. }
  destruct t as [|c t].
  - cbn [String.append] in Ht. rewrite append_nil_r.
    apply (append_inv_head "/keys/") in Ht.
    apply (f_equal (fun s => Split s "/")) in Ht.
    change (Split (k ++ String "/" ("keyVersions" ++ String "/" v)) "/"
            = Split (k' ++ String "/" ("keyVersions" ++ String "/" v')) "/") in Ht.
    rewrite !Split_piece in Ht by (reflexivity || lia).
    rewrite !Split_last in Ht by lia. now injection Ht as <- <-.
  - exfalso. cbn [String.append] in Ht. injection Ht as <- _.
    cbn [count_byte Ascii.eqb Bool.eqb] in Hcount. lia.
Qed.

End importMore.

Section ImportingURLs.
Context `{sdk : Sdk} `{service : !Service} `{driver : !Driver}.
Implicit Types (w : World) (d : ResourceData).

(** X14. An endpoint may hold slashes.  For an import string made of an
    endpoint without newline, such as a URL, and of a key and a key version
    without slash or newline, the import finds exactly these three: it
    writes them to [management_endpoint], [key_id] and [key_version_id],
    stores the composite identifier of the key and the key version, and
    makes the client for this endpoint. *)
Theorem import_with_slashes_in_endpoint d (m : OracleClients) w endpoint keyId keyVersionId :
  GetOkExists d "management_endpoint" = None ->
  Id d = import_format endpoint keyId keyVersionId ->
  GoString.all_bytes notNL endpoint = true ->
  GoString.all_bytes notNL keyId = true -> GoString.count_byte "/" keyId = 0 ->
  GoString.all_bytes notNL keyVersionId = true -> GoString.count_byte "/" keyVersionId = 0 ->
  FindStringSubmatch importIdRegexp (Id d) = [Id d; endpoint; keyId; keyVersionId]
  /\ let d' :=
       {| Id := getKeyVersionCompositeId keyId keyVersionId;
          fields := <["key_version_id" := keyVersionId]>
                      (<["key_id" := keyId]>
                         (<["management_endpoint" := endpoint]> (fields d))) |} in
     readKmsKeyVersion d m w =
       match OracleClients_KmsManagementClient m endpoint with
       | inr err => Returns (Some err) d' w
       | inl client => ReadResource (new_sync d' client) w
       end.
Proof.
  intros Hnone Hid He Hk Hks Hv Hvs.
  assert (Htokens : FindStringSubmatch importIdRegexp (Id d)
                    = [Id d; endpoint; keyId; keyVersionId]).
  { destruct (importFacts.FindStringSubmatch_import (Id d))
      as [(e' & k' & v' & Htokens & _) | [_ Hnot]].
    - rewrite Htokens. unfold FindStringSubmatch in Htokens.
      destruct (search importIdRegexp 0 (Id d)) as [[[b en] caps]|] eqn:E; [|discriminate].
      injection Htokens as _ Hcaps.
      assert (Hm : match_at importIdRegexp 0 (Id d) = Some (en, caps)).
      { destruct (Id d) as [|c s]; cbn [search] in E;
          destruct (match_at importIdRegexp 0 _) as [[en' caps']|]; try congruence.
        now rewrite importFacts.search_import_later in E. }
      rewrite Hid in Hm.
      pose proof (importMore.import_groups _ _ _ _ _ He Hk Hv Hks Hvs Hm) as Hgroups.
      rewrite Hgroups in Hcaps. now injection Hcaps as <- <- <-.
    - exfalso. exact (Hnot endpoint keyId keyVersionId He Hk Hv Hid). }
  split; [exact Htokens|].
  unfold readKmsKeyVersion. rewrite Hnone. cbv zeta.
  change (Compile importIdPattern) with (Some importIdRegexp). cbv iota beta.
  rewrite Htokens. reflexivity.
Qed.

End ImportingURLs.

Lemma import_with_slashes_in_endpoint_witness :
  let d := stored "managementEndpoint/https://kms.example.com/keys/k1/keyVersions/v1" [] in
  let d' := stored "keys/k1/keyVersions/v1"
              [("key_version_id", "v1"); ("key_id", "k1");
               ("management_endpoint", "https://kms.example.com")] in
  GetOkExists d "management_endpoint" = None
  /\ Id d = import_format "https://kms.example.com" "k1" "v1"
  /\ readKmsKeyVersion d clients world0
     = ReadResource (new_sync d' "https://kms.example.com") world0.
Proof.
  intros d d'. split; [reflexivity|]. split; [reflexivity|].
  exact (proj2 (import_with_slashes_in_endpoint d clients world0
                  "https://kms.example.com" "k1" "v1"
                  eq_refl eq_refl eq_refl eq_refl eq_refl eq_refl eq_refl)).
Defined.
